(** * Cross-chain veBAL sync: a shallow embedding of [useCrossChainSync]

    The composable [useCrossChainSync] (src/composables/cross-chain-sync/
    useCrossChainSync.ts) derives, from three subgraph queries, the sync state
    of a user's veBAL lock on the L2 networks, projects the decayed balance,
    and exposes the [sync] and [refetch] actions.  The reactive [computed]
    values are modelled as pure functions of the reactive store; the two
    asynchronous actions are modelled in a small trace monad. *)

From Stdlib Require Import ZArith List String Ascii Bool Lia QArith Qabs.
Import ListNotations.

Local Open Scope string_scope.
Local Open Scope Z_scope.

(** ** Networks *)

(** Modelled from the spec: the [Network] enum is imported from
    ['@/lib/config'], which is not among the sources.  The spec describes it
    as "an enumerated set of supported chain identifiers"; the members used
    by the sources are listed here, each with the chain id it stands for. *)
Inductive Network : Type :=
  | MAINNET
  | OPTIMISM
  | KOVAN
  | GNOSIS
  | POLYGON
  | ARBITRUM.

Definition Network_id (n : Network) : Z :=
  match n with
  | MAINNET => 1
  | OPTIMISM => 10
  | KOVAN => 42
  | GNOSIS => 100
  | POLYGON => 137
  | ARBITRUM => 42161
  end.

(** ** JavaScript objects with numeric keys

    [{ [Network.ARBITRUM]: v, ... }] is an object whose keys are integer
    indices.  [Object.keys] enumerates such keys in ascending numeric order,
    whatever the insertion order, and a repeated key overwrites.  An object
    is therefore kept as an association list sorted by key. *)
Module JsObj.

Definition t (V : Type) : Type := list (Z * V).

Definition empty {V} : t V := [].

Fixpoint set {V} (k : Z) (v : V) (o : t V) : t V :=
  match o with
  | [] => [(k, v)]
  | (k', v') :: rest =>
      if k <? k' then (k, v) :: o
      else if k =? k' then (k, v) :: rest
      else (k', v') :: set k v rest
  end.

Fixpoint get {V} (o : t V) (k : Z) : option V :=
  match o with
  | [] => None
  | (k', v) :: rest => if k =? k' then Some v else get rest k
  end.

(** [Object.keys(o).map(v => Number(v))] *)
Definition keys {V} (o : t V) : list Z := map fst o.

End JsObj.

(** ** Data model *)

Inductive NetworkSyncState : Type :=
  | Unsynced
  | Syncing
  | Synced.

Definition NetworkSyncState_eqb (a b : NetworkSyncState) : bool :=
  match a, b with
  | Unsynced, Unsynced | Syncing, Syncing | Synced, Synced => true
  | _, _ => false
  end.

(** [interface EscrowLockData { bias: string; slope: string }] *)
Record EscrowLockData : Type := mkEscrowLockData {
  bias : string;
  slope : string
}.

(** Modelled from the spec: [allEqual] is imported from
    ['@/lib/utils/array'], which is not among the sources.  The spec reads
    it as "pairwise equal (exact string/decimal equality)": every element
    is strictly equal to the first one. *)
Definition allEqual (l : list string) : bool :=
  match l with
  | [] => true
  | x :: _ => forallb (String.eqb x) l
  end.

(** ** The sync-state classifier *)

Definition getNetworkSyncState
    (omniEscrowData votingEscrowMainnet votingEscrowNetwork : EscrowLockData)
    : NetworkSyncState :=
  let biasOmniEscrow := bias omniEscrowData in
  let slopeOmniEscrow := slope omniEscrowData in
  let biasVotingEscrow := bias votingEscrowMainnet in
  let slopeVotingEscrow := slope votingEscrowMainnet in
  let biasVotingEscrowNetwork := bias votingEscrowNetwork in
  let slopeVotingEscrowNetwork := slope votingEscrowNetwork in
  let isSynced :=
    allEqual [biasOmniEscrow; biasVotingEscrow; biasVotingEscrowNetwork] &&
    allEqual [slopeOmniEscrow; slopeVotingEscrow; slopeVotingEscrowNetwork] in
  let isSyncing :=
    allEqual [biasOmniEscrow; biasVotingEscrow] &&
    allEqual [slopeOmniEscrow; slopeVotingEscrow] &&
    negb (String.eqb slopeOmniEscrow slopeVotingEscrowNetwork) &&
    negb (String.eqb biasOmniEscrow biasVotingEscrowNetwork) in
  if isSynced then Synced
  else if isSyncing then Syncing
  else Unsynced.

(** ** JavaScript numbers

    [Math.floor(Date.now() / 1000) - timestamp] is a subtraction of doubles.
    Both operands are integers here, so the result is their exact difference
    rounded to the nearest double, ties to even: exact up to [2 ^ 53] in
    magnitude, rounded to 53 significant bits above, and an infinity from
    [2 ^ 1024] on. *)
Module JsNumber.

Inductive t : Type :=
  | Int (z : Z)
  | Inf (negative : bool)
  | NaN.

Definition two53 : Z := 2 ^ 53.

(** A non-negative integer rounded to 53 significant bits. *)
Definition round_magnitude (a : Z) : Z :=
  if a <=? two53 then a
  else
    let e := Z.log2 a - 52 in
    let q := a / 2 ^ e in
    let r := a mod 2 ^ e in
    let half := 2 ^ (e - 1) in
    let m := if (half <? r) || ((half =? r) && Z.odd q) then q + 1 else q in
    m * 2 ^ e.

(** The double nearest to an integer: what a numeric literal denotes and
    what an integer result is rounded to. *)
Definition of_Z (z : Z) : t :=
  let m := round_magnitude (Z.abs z) in
  if 2 ^ 1024 <=? m then Inf (z <? 0)
  else Int (if z <? 0 then - m else m).

(** [a - b] *)
Definition sub (a b : t) : t :=
  match a, b with
  | NaN, _ | _, NaN => NaN
  | Int x, Int y => of_Z (x - y)
  | Int _, Inf s => Inf (negb s)
  | Inf s, Int _ => Inf s
  | Inf s, Inf s' => if Bool.eqb s s' then NaN else Inf s
  end.

Fixpoint digits10 (fuel : nat) (a : Z) : nat :=
  match fuel with
  | O => O
  | S fuel' => if a =? 0 then O else S (digits10 fuel' (a / 10))
  end.

(** [String(a)] denotes the decimal with the fewest significant digits that
    reads back as the double [a], the closest one if several do (and the one
    with an even last digit on a tie).  [shortest_from k] tries [k]
    significant digits, then more. *)
Fixpoint shortest_from (fuel k : nat) (digits : nat) (a : Z) : Z :=
  match fuel with
  | O => a
  | S fuel' =>
      let p := 10 ^ Z.of_nat (digits - k) in
      let lo := a / p * p in
      let hi := lo + p in
      let ok_lo := round_magnitude lo =? a in
      let ok_hi := round_magnitude hi =? a in
      if ok_lo && ok_hi then
        if a - lo <? hi - a then lo
        else if hi - a <? a - lo then hi
        else if Z.even (a / p) then lo else hi
      else if ok_lo then lo
      else if ok_hi then hi
      else shortest_from fuel' (S k) digits a
  end.

(** The integer that [String(a)] writes, for the magnitude [a] of an
    integer-valued double: [a] itself up to [2 ^ 53]. *)
Definition to_decimal (a : Z) : Z :=
  if a <=? two53 then a
  else shortest_from 17 1 (digits10 (S (Z.to_nat (Z.log2 a))) a) a.

End JsNumber.

(** ** Arbitrary-precision decimals

    [bignumber.js] is an external library.  The three operations the
    composable uses are exact on finite values: [multipliedBy] and [minus]
    never round, and [toFixed] rounds with the library's default rounding
    mode, ROUND_HALF_UP (to nearest, ties away from zero).  A finite value is
    kept as an integer coefficient with a number of decimal places. *)
Module BigNumber.

(** The value [coeff / 10 ^ dp]. *)
Record t : Type := mk { coeff : Z; dp : nat }.

Definition pow10 (n : nat) : Z := 10 ^ Z.of_nat n.

Definition value (x : t) : Q := inject_Z (coeff x) / inject_Z (pow10 (dp x)).

(** *** Reading a decimal literal *)

Definition digit_of_ascii (c : ascii) : option Z :=
  let n := nat_of_ascii c in
  if (48 <=? n)%nat && (n <=? 57)%nat then Some (Z.of_nat (n - 48)) else None.

(** Reads a string made of digits only, most significant first. *)
Fixpoint read_digits (s : string) (acc : Z) : option Z :=
  match s with
  | EmptyString => Some acc
  | String c rest =>
      match digit_of_ascii c with
      | Some d => read_digits rest (10 * acc + d)
      | None => None
      end
  end.

(** Splits at the first decimal point, when there is one. *)
Fixpoint split_dot (s : string) : string * option string :=
  match s with
  | EmptyString => (EmptyString, None)
  | String c rest =>
      if Ascii.eqb c "." then (EmptyString, Some rest)
      else let '(i, f) := split_dot rest in (String c i, f)
  end.

(** The digits after the sign: digits with an optional point and
    fraction, or a point followed by digits. *)
Definition of_body (negative : bool) (body : string) : option t :=
  let '(int_part, frac) := split_dot body in
  let frac_part := match frac with Some f => f | None => EmptyString end in
  if (String.length int_part =? 0)%nat && (String.length frac_part =? 0)%nat
  then None
  else
    match read_digits (int_part ++ frac_part) 0 with
    | Some c => Some (mk (if negative then - c else c) (String.length frac_part))
    | None => None
    end.

(** [new BigNumber(str)] on a plain decimal literal: an optional minus
    sign, then the digits.  [None] stands for every other string: the
    further notations the library accepts (exponents, other bases,
    Infinity) and the strings it turns into NaN are outside this model. *)
Definition of_string (s : string) : option t :=
  match s with
  | String c rest => if Ascii.eqb c "-" then of_body true rest else of_body false s
  | EmptyString => None
  end.

(** [new BigNumber(n)] on an integral JavaScript number (one that a double
    holds exactly, as Unix times and their differences are). *)
Definition of_Z (n : Z) : t := mk n 0.

(** *** Arithmetic *)

Definition multipliedBy (x y : t) : t :=
  mk (coeff x * coeff y) (dp x + dp y).

Definition minus (x y : t) : t :=
  let d := Nat.max (dp x) (dp y) in
  mk (coeff x * pow10 (d - dp x) - coeff y * pow10 (d - dp y)) d.

(** *** Fixed-point formatting *)

(** The magnitude of [x], scaled by [10 ^ d] and rounded half up. *)
Definition round_half_up (d : nat) (x : t) : Z :=
  let a := Z.abs (coeff x) in
  if (dp x <=? d)%nat then a * pow10 (d - dp x)
  else
    let k := pow10 (dp x - d) in
    let q := a / k in
    let r := a mod k in
    if k <=? 2 * r then q + 1 else q.

Definition digit_char (d : Z) : ascii := ascii_of_nat (48 + Z.to_nat d).

(** The [d] least significant decimal digits of [n]. *)
Fixpoint fixed_digits (d : nat) (n : Z) : string :=
  match d with
  | O => EmptyString
  | S d' => fixed_digits d' (n / 10) ++ String (digit_char (n mod 10)) EmptyString
  end.

Fixpoint count_digits (fuel : nat) (n : Z) : nat :=
  match fuel with
  | O => O
  | S fuel' => if n =? 0 then O else S (count_digits fuel' (n / 10))
  end.

(** A natural number without leading zeros; zero is ["0"]. *)
Definition nat_string (n : Z) : string :=
  if n =? 0 then "0"
  else fixed_digits (count_digits (S (Z.to_nat (Z.log2 n))) n) n.

(** [x.toFixed(d)].  The sign is the one of the value before rounding: a
    negative value that rounds to zero still prints its minus sign. *)
Definition toFixed (d : nat) (x : t) : string :=
  let m := round_half_up d x in
  (if coeff x <? 0 then "-" else "")
    ++ nat_string (m / pow10 d)
    ++ (if (d =? 0)%nat then "" else "." ++ fixed_digits d (m mod pow10 d)).

(** *** Values that are not finite, and the exponent limit

    A [BigNumber] is NaN, an infinity or a finite decimal.  The results of
    [multipliedBy] and [minus] pass through the library's [normalise]: a
    value whose decimal exponent exceeds [MAX_EXP] becomes an infinity, one
    below [MIN_EXP] becomes zero. *)
Inductive num : Type :=
  | NaN
  | Infinity (negative : bool)
  | Finite (x : t).

Definition MAX_EXP : Z := 1000000000.
Definition MIN_EXP : Z := -1000000000.

(** The decimal exponent of a non-zero value: the position of its leading
    digit. *)
Definition exponent10 (x : t) : Z :=
  Z.of_nat (count_digits (S (Z.to_nat (Z.log2 (Z.abs (coeff x))))) (Z.abs (coeff x)))
  - 1 - Z.of_nat (dp x).


Definition normalise (x : t) : num :=
  if coeff x =? 0 then Finite x
  else if MAX_EXP <? exponent10 x then Infinity (coeff x <? 0)
  else if exponent10 x <? MIN_EXP then Finite (mk 0 0)
  else Finite x.

Definition num_multipliedBy (a b : num) : num :=
  match a, b with
  | NaN, _ | _, NaN => NaN
  | Infinity s, Infinity s' => Infinity (xorb s s')
  | Infinity s, Finite y =>
      if coeff y =? 0 then NaN else Infinity (xorb s (coeff y <? 0))
  | Finite x, Infinity s =>
      if coeff x =? 0 then NaN else Infinity (xorb (coeff x <? 0) s)
  | Finite x, Finite y => normalise (multipliedBy x y)
  end.

Definition num_minus (a b : num) : num :=
  match a, b with
  | NaN, _ | _, NaN => NaN
  | Infinity s, Infinity s' => if Bool.eqb s s' then NaN else Infinity s
  | Infinity s, Finite _ => Infinity s
  | Finite _, Infinity s => Infinity (negb s)
  | Finite x, Finite y => normalise (minus x y)
  end.

Definition num_toFixed (d : nat) (a : num) : string :=
  match a with
  | NaN => "NaN"
  | Infinity true => "-Infinity"
  | Infinity false => "Infinity"
  | Finite x => toFixed d x
  end.

(** [new BigNumber(n)] on a JavaScript number with an integral value: the
    library reads the digits that [String(n)] writes. *)
Definition of_number (n : JsNumber.t) : num :=
  match n with
  | JsNumber.NaN => NaN
  | JsNumber.Inf s => Infinity s
  | JsNumber.Int z =>
      let m := JsNumber.to_decimal (Z.abs z) in
      Finite (mk (if z <? 0 then - m else m) 0)
  end.

(** A stand-in for the library's parser in examples: it reads the plain
    decimal literals and answers NaN to everything else. *)
Definition parse_decimal (s : string) : num :=
  match of_string s with
  | Some x => Finite x
  | None => NaN
  end.

End BigNumber.

(** ** The decay model *)

(** [Math.floor(Date.now() / 1000)], with the clock reading in milliseconds
    passed in.  A clock reading is an integer of magnitude at most
    8.64e15; on that range the division of doubles followed by
    [Math.floor] is the floored integer quotient. *)
Definition now_seconds (now_ms : Z) : Z := now_ms / 1000.


(** [veBAL_balance = bias - slope * (now() - timestamp)].  [parse] is the
    library's [new BigNumber(string)], taken as a parameter: besides plain
    decimal literals it reads further notations that are not modelled here.
    [timestamp] is the integer a numeric literal would denote. *)
Definition calculateVeBAlBalance (parse : string -> BigNumber.num) (now_ms : Z)
    (bias slope : string) (timestamp : Z) : string :=
  let x :=
    BigNumber.num_multipliedBy (parse slope)
      (BigNumber.of_number
         (JsNumber.sub (JsNumber.Int (now_seconds now_ms))
                       (JsNumber.of_Z timestamp))) in
  BigNumber.num_toFixed 4 (BigNumber.num_minus (parse bias) x).

(** ** Subgraph records and the reactive store *)

(** A row of [omniVotingEscrowLocks]: the lock as the bridge contract
    knows it. *)
Module OmniVotingEscrowLock.
Record t : Type := mk { bias : string; slope : string; remoteUser : string }.
End OmniVotingEscrowLock.

(** A row of [votingEscrowLocks]: the lock on one chain. *)
Module VotingEscrowLock.
Record t : Type := mk { bias : string; slope : string; timestamp : Z }.
End VotingEscrowLock.

Record OmniEscrowLocksResponse : Type := mkOmniEscrowLocksResponse {
  omniVotingEscrowLocks : list OmniVotingEscrowLock.t
}.

Record VotingEscrowLocksResponse : Type := mkVotingEscrowLocksResponse {
  votingEscrowLocks_rows : list VotingEscrowLock.t
}.

(** What the three queries expose: [data] ([None] while undefined) and
    [isLoading]. *)
Record Store : Type := mkStore {
  omniEscrowResponse : option OmniEscrowLocksResponse;
  isLoadingOmniEscrow : bool;
  mainnetVotingEscrowResponse : option VotingEscrowLocksResponse;
  isLoadingVotingEscrow : bool;
  arbitrumVotingEscrowResponse : option VotingEscrowLocksResponse;
  isLoadingVotingEscrowArbitrum : bool
}.

(** The object [{ [Network.MAINNET]: ..., [Network.ARBITRUM]: ... }]. *)
Record VotingEscrowLocksByNetwork : Type := mkVotingEscrowLocksByNetwork {
  at_MAINNET : VotingEscrowLock.t;
  at_ARBITRUM : VotingEscrowLock.t
}.

(** JavaScript truthiness of a string. *)
Definition truthy (s : string) : bool := negb (String.eqb s "").

Definition is_some {A} (o : option A) : bool :=
  match o with Some _ => true | None => false end.

(** ** Derived values *)

(** [omniEscrowResponse.value?.omniVotingEscrowLocks.length === 0] *)
Definition allNetworksUnsynced (st : Store) : bool :=
  match omniEscrowResponse st with
  | Some r => (List.length (omniVotingEscrowLocks r) =? 0)%nat
  | None => false
  end.

(** [None] stands for both [null] and [undefined]: the callers only test
    the value and chain through it. *)
Definition omniEscrowLocks (st : Store) : option OmniVotingEscrowLock.t :=
  if allNetworksUnsynced st then None
  else
    match omniEscrowResponse st with
    | Some r => nth_error (omniVotingEscrowLocks r) 0
    | None => None
    end.

Definition remoteUser (st : Store) : option string :=
  option_map OmniVotingEscrowLock.remoteUser (omniEscrowLocks st).

(** [response.value?.votingEscrowLocks[0]] *)
Definition first_lock (response : option VotingEscrowLocksResponse)
    : option VotingEscrowLock.t :=
  match response with
  | Some r => nth_error (votingEscrowLocks_rows r) 0
  | None => None
  end.

Definition votingEscrowLocks (st : Store) : option VotingEscrowLocksByNetwork :=
  let votingEscrowLocks := first_lock (mainnetVotingEscrowResponse st) in
  let votingEscrowLocksArbitrum := first_lock (arbitrumVotingEscrowResponse st) in
  match votingEscrowLocks, votingEscrowLocksArbitrum with
  | Some m, Some a => Some (mkVotingEscrowLocksByNetwork m a)
  | _, _ => None
  end.

Definition isLoading (st : Store) : bool :=
  if allNetworksUnsynced st then false
  else isLoadingOmniEscrow st || isLoadingVotingEscrow st
       || isLoadingVotingEscrowArbitrum st.

Definition networksSyncState (st : Store) : option (JsObj.t NetworkSyncState) :=
  if allNetworksUnsynced st then
    Some (JsObj.set (Network_id POLYGON) Unsynced
         (JsObj.set (Network_id GNOSIS) Unsynced
         (JsObj.set (Network_id OPTIMISM) Unsynced
         (JsObj.set (Network_id ARBITRUM) Unsynced JsObj.empty))))
  else if isLoading st
          || negb (is_some (omniEscrowLocks st))
          || negb (is_some (option_map at_MAINNET (votingEscrowLocks st)))
          || negb (is_some (option_map at_ARBITRUM (votingEscrowLocks st)))
  then None
  else
    match omniEscrowLocks st, votingEscrowLocks st with
    | Some omni, Some ve =>
        let bias := OmniVotingEscrowLock.bias omni in
        let slope := OmniVotingEscrowLock.slope omni in
        let biasVotingEscrow := VotingEscrowLock.bias (at_MAINNET ve) in
        let slopeVotingEscrow := VotingEscrowLock.slope (at_MAINNET ve) in
        let biasVotingEscrowArb := VotingEscrowLock.bias (at_ARBITRUM ve) in
        let slopeVotingEscrowArb := VotingEscrowLock.slope (at_ARBITRUM ve) in
        Some (JsObj.set (Network_id ARBITRUM)
                (getNetworkSyncState
                   (mkEscrowLockData bias slope)
                   (mkEscrowLockData biasVotingEscrow slopeVotingEscrow)
                   (mkEscrowLockData biasVotingEscrowArb slopeVotingEscrowArb))
                JsObj.empty)
    | _, _ => None
    end.

(** The keys of the declared result type
    [interface NetworknetworksBySyncState { synced; unsynced }]. *)
Definition NetworknetworksBySyncState : list string := ["synced"; "unsynced"].

(** An object literal with string keys, in the order it is written. *)
Definition lookup_key {V} (o : list (string * V)) (k : string) : option V :=
  match find (fun kv => String.eqb (fst kv) k) o with
  | Some kv => Some (snd kv)
  | None => None
  end.

Definition has_state (o : JsObj.t NetworkSyncState) (s : NetworkSyncState)
    (network : Z) : bool :=
  match JsObj.get o network with
  | Some s' => NetworkSyncState_eqb s' s
  | None => false
  end.

Definition networksBySyncState (st : Store) : list (string * list Z) :=
  match networksSyncState st with
  | None => [("synced", []); ("unsynced", [])]
  | Some o =>
      [("synced", filter (has_state o Synced) (JsObj.keys o));
       ("unsynced", filter (has_state o Unsynced) (JsObj.keys o));
       ("sincing", filter (has_state o Syncing) (JsObj.keys o))]
  end.

Definition l2VeBalBalances (parse : string -> BigNumber.num) (now_ms : Z)
    (st : Store) : option (JsObj.t string) :=
  match votingEscrowLocks st with
  | None => None
  | Some ve =>
      let biasArb := VotingEscrowLock.bias (at_ARBITRUM ve) in
      let slopeArb := VotingEscrowLock.slope (at_ARBITRUM ve) in
      let timestampArb := VotingEscrowLock.timestamp (at_ARBITRUM ve) in
      Some (JsObj.set (Network_id ARBITRUM)
              (calculateVeBAlBalance parse now_ms biasArb slopeArb timestampArb)
              JsObj.empty)
  end.

(** All networks that are supported by the cross-chain sync feature. *)
Definition allNetworks : list Network := [POLYGON; ARBITRUM; GNOSIS; OPTIMISM].

(** The LayerZero chain ids. *)
Definition LayerZeroNetworkId : JsObj.t Z :=
  JsObj.set (Network_id OPTIMISM) 111
    (JsObj.set (Network_id ARBITRUM) 110
       (JsObj.set (Network_id POLYGON) 109 JsObj.empty)).

(** ** A monad for the asynchronous actions

    An [async] function either resolves or rejects; what it did on the way
    is recorded in the state it threads (a trace of calls, and for
    [refetch] the reactive store). *)
Inductive result (A : Type) : Type :=
  | Resolved (a : A)
  | Rejected (message : string).
Arguments Resolved {A} a.
Arguments Rejected {A} message.

Definition M (S A : Type) : Type := S -> result A * S.

Definition ret {S A} (a : A) : M S A := fun s => (Resolved a, s).

Definition bind {S A B} (m : M S A) (k : A -> M S B) : M S B :=
  fun s =>
    match m s with
    | (Resolved a, s') => k a s'
    | (Rejected e, s') => (Rejected e, s')
    end.

Definition throw {S A} (message : string) : M S A := fun s => (Rejected message, s).

Definition modify {S} (f : S -> S) : M S unit := fun s => (Resolved tt, f s).

Definition gets {S A} (f : S -> A) : M S A := fun s => (Resolved (f s), s).

Definition lift_result {S A} (r : result A) : M S A := fun s => (r, s).

Declare Scope action_scope.
Delimit Scope action_scope with action.
Notation "x <- m ;; k" := (bind m (fun x => k))
  (at level 100, m at next level, right associativity) : action_scope.
Notation "m ;; k" := (bind m (fun _ => k))
  (at level 100, right associativity) : action_scope.

(** ** The [sync] action *)

Definition Signer : Type := string.
Definition TransactionResponse : Type := string.

(** What [estimateSendUserBalance] resolves to; [sync] reads [nativeFee]. *)
Record SendFees : Type := mkSendFees { nativeFee : Z }.

Record SendUserBalanceParams : Type := mkSendUserBalanceParams {
  param_signer : Signer;
  param_userAddress : string;
  param_chainId : option Z;
  param_nativeFee : Z
}.

(** The bridge contract service, an external collaborator: each method
    resolves or rejects. *)
Record OmniVotingEscrow : Type := mkOmniVotingEscrow {
  estimateSendUserBalance : Signer -> option Z -> result SendFees;
  sendUserBalance : SendUserBalanceParams -> result TransactionResponse
}.

(** What [sync] reads from its surroundings:
    [configService.network.addresses.omniVotingEscrow], [getSigner],
    [account.value] and the [OmniVotingEscrow] constructor. *)
Record SyncEnv : Type := mkSyncEnv {
  omniVotingEscrow_address : option string;
  getSigner : Signer;
  account : string;
  new_OmniVotingEscrow : string -> OmniVotingEscrow
}.

Inductive SyncEvent : Type :=
  | ConsoleLog (label : string)
  | GetSigner
  | NewOmniVotingEscrow (contractAddress : string)
  | EstimateSendUserBalance (signer : Signer) (chainId : option Z)
  | SendUserBalance (params : SendUserBalanceParams).

Definition emit {E} (e : E) : M (list E) unit := modify (fun tr => (tr ++ [e])%list).

Local Open Scope action_scope.

Definition sync (env : SyncEnv) (network : Network)
    : M (list SyncEvent) TransactionResponse :=
  match omniVotingEscrow_address env with
  | None => throw "No contract address found"
  | Some contractAddress =>
      if negb (truthy contractAddress) then throw "No contract address found"
      else
        emit (ConsoleLog "contractAddress");;
        emit (ConsoleLog "network");;
        emit GetSigner;;
        let signer := getSigner env in
        emit (NewOmniVotingEscrow contractAddress);;
        let omniVotingEscrowContract := new_OmniVotingEscrow env contractAddress in
        let chainId := JsObj.get LayerZeroNetworkId (Network_id network) in
        emit (EstimateSendUserBalance signer chainId);;
        tx <- lift_result (estimateSendUserBalance omniVotingEscrowContract signer chainId);;
        let nativeFee := nativeFee tx in
        emit (ConsoleLog "nativeFee");;
        let params := mkSendUserBalanceParams signer (account env) chainId nativeFee in
        emit (SendUserBalance params);;
        lift_result (sendUserBalance omniVotingEscrowContract params)
  end.

(** The calls that reach the bridge contract. *)
Definition is_contract_call (e : SyncEvent) : bool :=
  match e with
  | EstimateSendUserBalance _ _ | SendUserBalance _ => true
  | _ => false
  end.

Definition is_send (e : SyncEvent) : bool :=
  match e with SendUserBalance _ => true | _ => false end.

(** ** The [refetch] action *)

Inductive Fetcher : Type :=
  | OmniEscrow
  | VotingEscrow
  | VotingEscrowArbitrum.

Definition Fetcher_eqb (a b : Fetcher) : bool :=
  match a, b with
  | OmniEscrow, OmniEscrow
  | VotingEscrow, VotingEscrow
  | VotingEscrowArbitrum, VotingEscrowArbitrum => true
  | _, _ => false
  end.

(** A fetcher is called, and later its promise settles. *)
Inductive FetchEvent : Type :=
  | Called (f : Fetcher)
  | Settled (f : Fetcher).

(** The three [refetch] functions of the query layer, external
    collaborators.  When one settles it has written its result into the
    reactive store; its promise resolves whatever the outcome of the query,
    which is reported through the store. *)
Record Refetchers : Type := mkRefetchers {
  refetchOmniEscrow : Store -> Store;
  refetchVotingEscrow : Store -> Store;
  refetchVotingEscrowArbitrum : Store -> Store
}.

Definition run_fetcher (r : Refetchers) (f : Fetcher) : Store -> Store :=
  match f with
  | OmniEscrow => refetchOmniEscrow r
  | VotingEscrow => refetchVotingEscrow r
  | VotingEscrowArbitrum => refetchVotingEscrowArbitrum r
  end.

Definition RefetchState : Type := Store * list FetchEvent.

Definition call (f : Fetcher) : M RefetchState unit :=
  modify (fun s => (fst s, (snd s ++ [Called f])%list)).

Definition settle (r : Refetchers) (f : Fetcher) : M RefetchState unit :=
  modify (fun s => (run_fetcher r f (fst s), (snd s ++ [Settled f])%list)).

(** The two promises handed to [Promise.all] are in flight together and
    settle in either order. *)
Inductive SettleOrder : Type :=
  | OmniEscrowFirst
  | VotingEscrowFirst.

Definition refetch (r : Refetchers) (order : SettleOrder) : M RefetchState unit :=
  call OmniEscrow;;
  call VotingEscrow;;
  match order with
  | OmniEscrowFirst => settle r OmniEscrow;; settle r VotingEscrow
  | VotingEscrowFirst => settle r VotingEscrow;; settle r OmniEscrow
  end;;
  user <- gets (fun s => remoteUser (fst s));;
  match user with
  | Some u =>
      if truthy u then call VotingEscrowArbitrum;; settle r VotingEscrowArbitrum
      else ret tt
  | None => ret tt
  end.

Local Close Scope action_scope.

Definition calls_to (f : Fetcher) (tr : list FetchEvent) : nat :=
  List.length (filter (fun e => match e with Called g => Fetcher_eqb f g | _ => false end) tr).

(** A [remoteUser] is resolved when [remoteUser.value] is truthy. *)
Definition remoteUser_resolved (st : Store) : bool :=
  match remoteUser st with
  | Some u => truthy u
  | None => false
  end.

(** The store once the two promises handed to [Promise.all] have settled. *)
Definition after_initial_fetches (r : Refetchers) (order : SettleOrder)
    (st : Store) : Store :=
  match order with
  | OmniEscrowFirst => refetchVotingEscrow r (refetchOmniEscrow r st)
  | VotingEscrowFirst => refetchOmniEscrow r (refetchVotingEscrow r st)
  end.

Definition settle_events (order : SettleOrder) : list FetchEvent :=
  match order with
  | OmniEscrowFirst => [Settled OmniEscrow; Settled VotingEscrow]
  | VotingEscrowFirst => [Settled VotingEscrow; Settled OmniEscrow]
  end.

(** ** Sample stores and collaborators *)

(** Nothing has been fetched yet. *)
Definition initial_store : Store := mkStore None true None true None true.

(** A store in which all three queries have settled with one row each. *)
Definition settled_store : Store :=
  mkStore (Some (mkOmniEscrowLocksResponse
                   [OmniVotingEscrowLock.mk "10" "1" "0xabc"])) false
          (Some (mkVotingEscrowLocksResponse
                   [VotingEscrowLock.mk "10" "1" 1700000000])) false
          (Some (mkVotingEscrowLocksResponse
                   [VotingEscrowLock.mk "10" "1" 1700000000])) false.

(** Refetchers that bring [initial_store] to [settled_store]. *)
Definition settling_refetchers : Refetchers :=
  mkRefetchers
    (fun st => mkStore (omniEscrowResponse settled_store) false
                       (mainnetVotingEscrowResponse st) (isLoadingVotingEscrow st)
                       (arbitrumVotingEscrowResponse st)
                       (isLoadingVotingEscrowArbitrum st))
    (fun st => mkStore (omniEscrowResponse st) (isLoadingOmniEscrow st)
                       (mainnetVotingEscrowResponse settled_store) false
                       (arbitrumVotingEscrowResponse st)
                       (isLoadingVotingEscrowArbitrum st))
    (fun st => mkStore (omniEscrowResponse st) (isLoadingOmniEscrow st)
                       (mainnetVotingEscrowResponse st) (isLoadingVotingEscrow st)
                       (arbitrumVotingEscrowResponse settled_store) false).

(** A bridge contract whose fee estimation rejects, and one that works. *)
Definition failing_contract : OmniVotingEscrow :=
  mkOmniVotingEscrow (fun _ _ => Rejected "estimate failed")
                     (fun _ => Resolved "0xtx").

Definition working_contract : OmniVotingEscrow :=
  mkOmniVotingEscrow (fun _ _ => Resolved (mkSendFees 7))
                     (fun _ => Resolved "0xtx").

(** ** The voting-gauge generator script

    src/lib/scripts/voting-gauge.generator.ts collects, for every pool of a
    list, its gauge address, its description and the logo of each of its
    tokens.  What the script reads from its surroundings is gathered in
    [ScriptEnv]; every request it makes is recorded in the trace. *)

Definition Network_eqb (a b : Network) : bool := Network_id a =? Network_id b.

(** [network.toString()]: the decimal chain id. *)
Definition Network_toString (n : Network) : string :=
  BigNumber.nat_string (Network_id n).

(** A possibly undefined string placed in a template literal. *)
Definition interpolate (o : option string) : string :=
  match o with
  | Some s => s
  | None => "undefined"
  end.

Definition dquote : string := String (ascii_of_nat 34) EmptyString.
Definition newline : string := String (ascii_of_nat 10) EmptyString.

Module PoolToken.
Record json : Type := mk_json {
  json_address : string;
  json_weight : option string;
  json_symbol : string
}.
Record t : Type := mk { address : string; weight : string; symbol : string }.
End PoolToken.

(** What the pools API answers, and the [Pool] the script keeps. *)
Record PoolJson : Type := mkPoolJson {
  json_id : string;
  json_pool_address : string;
  json_poolType : string;
  json_pool_symbol : string;
  json_tokens : list PoolToken.json
}.

Record Pool : Type := mkPool {
  pool_id : string;
  pool_address : string;
  pool_poolType : string;
  pool_symbol : string;
  pool_tokens : list PoolToken.t
}.

(** The answer of the gauge subgraph: [{ data: { liquidityGauges: [{ id }] } }],
    where [data] can be missing. *)
Record GaugesJson : Type := mkGaugesJson {
  data_liquidityGauges : option (list string)
}.

(** The script's collaborators: [getAddress] of ethers (throws on a
    malformed address), [fetch] (its promise rejects on a network failure;
    for the two JSON endpoints the request and [response.json()] are one
    step), [process.env.POOLS_API_URL] and [config[network].subgraphs.gauge]
    (a [TypeError] when the configuration has no such network). *)
Record ScriptEnv : Type := mkScriptEnv {
  getAddress : string -> result string;
  fetch_status : string -> result Z;
  POOLS_API_URL : option string;
  fetch_pool : string -> result PoolJson;
  gauge_subgraph : Network -> result string;
  post_gauges : string -> string -> result GaugesJson
}.

Inductive ScriptEvent : Type :=
  | Fetch (url : string)
  | Post (url query : string).

Definition getBalancerAssetsURI (tokenAdress : string) : string :=
  "https://raw.githubusercontent.com/balancer-labs/assets/master/assets/"
    ++ tokenAdress ++ ".png".

Definition networksMap : JsObj.t string :=
  JsObj.set (Network_id KOVAN) "kovan"
    (JsObj.set (Network_id POLYGON) "polygon"
       (JsObj.set (Network_id ARBITRUM) "arbitrum"
          (JsObj.set (Network_id MAINNET) "ethereum" JsObj.empty))).

Definition getTrustWalletAssetsURI (env : ScriptEnv) (tokenAdress : string)
    (network : Network) : result string :=
  match getAddress env tokenAdress with
  | Rejected e => Rejected e
  | Resolved checksummedAddress =>
      Resolved
        ("https://raw.githubusercontent.com/trustwallet/assets/master/blockchains/"
           ++ interpolate (JsObj.get networksMap (Network_id network))
           ++ "/assets/" ++ checksummedAddress ++ "/logo.png")
  end.

Local Open Scope action_scope.

Definition getTokenLogoURI (env : ScriptEnv) (tokenAdress : string)
    (network : Network) : M (list ScriptEvent) string :=
  found <-
    (if Network_eqb network MAINNET then
       let logoUri := getBalancerAssetsURI tokenAdress in
       emit (Fetch logoUri);;
       status <- lift_result (fetch_status env logoUri);;
       ret (if status =? 200 then Some logoUri else None)
     else ret None);;
  match found with
  | Some logoUri => ret logoUri
  | None =>
      logoUri <- lift_result (getTrustWalletAssetsURI env tokenAdress network);;
      emit (Fetch logoUri);;
      status <- lift_result (fetch_status env logoUri);;
      if status =? 200 then ret logoUri else ret ""
  end.

Definition getPoolInfo (env : ScriptEnv) (poolId : string) (network : Network)
    : M (list ScriptEvent) Pool :=
  let poolsApiEndpoint := POOLS_API_URL env in
  let url := interpolate poolsApiEndpoint ++ "/" ++ Network_toString network
               ++ "/" ++ poolId in
  emit (Fetch url);;
  response <- lift_result (fetch_pool env url);;
  let tokensList :=
    map (fun token =>
           PoolToken.mk
             (PoolToken.json_address token)
             (match PoolToken.json_weight token with
              | Some w => if truthy w then w else "null"
              | None => "null"
              end)
             (PoolToken.json_symbol token))
        (json_tokens response) in
  ret (mkPool (json_id response) (json_pool_address response)
              (json_poolType response) (json_pool_symbol response) tokensList).

Definition gauge_query (poolId : string) : string :=
  newline
  ++ "    {" ++ newline
  ++ "      liquidityGauges(" ++ newline
  ++ "        where: {" ++ newline
  ++ "          poolId: " ++ dquote ++ poolId ++ dquote ++ newline
  ++ "        }" ++ newline
  ++ "      ) {" ++ newline
  ++ "        id" ++ newline
  ++ "      }" ++ newline
  ++ "    }" ++ newline
  ++ "  ".

Definition getLayer1GaugeAddress (env : ScriptEnv) (poolId : string)
    (network : Network) : M (list ScriptEvent) string :=
  subgraphEndpoint <- lift_result (gauge_subgraph env network);;
  let query := gauge_query poolId in
  emit (Post subgraphEndpoint query);;
  response <- lift_result (post_gauges env subgraphEndpoint query);;
  match data_liquidityGauges response with
  | None => throw "TypeError"
  | Some liquidityGauges =>
      match nth_error liquidityGauges 0 with
      | None => throw "TypeError"
      | Some id => ret (if truthy id then id else "")
      end
  end.

Definition getLayer2GaugeAddress (poolId : string) (network : Network)
    : M (list ScriptEvent) string :=
  ret "0x0000000000000000000000000000000000000000".

Definition getGaugeAddress (env : ScriptEnv) (poolId : string) (network : Network)
    : M (list ScriptEvent) string :=
  if existsb (Network_eqb network) [MAINNET; KOVAN]
  then getLayer1GaugeAddress env poolId network
  else getLayer2GaugeAddress poolId network.

Local Close Scope action_scope.

(** ** Fetching the pools for the smart order router

    [fetchPoolsForSor] (lib/balancer.sdk) fetches the pools once: the
    reactive flag [hasFetchedPoolsForSor] is part of the state it threads,
    with the trace of what it did. *)

Inductive SorEvent : Type :=
  | SorConsole (label : string)
  | FetchPools.

Definition SorState : Type := bool * list SorEvent.

Definition sor_emit (e : SorEvent) : M SorState unit :=
  modify (fun s => (fst s, (snd s ++ [e])%list)).

Local Open Scope action_scope.

(** [fetchPools] stands for [balancer.swaps.fetchPools()], whose promise
    resolves to a boolean or rejects. *)
Definition fetchPoolsForSor (fetchPools : result bool) : M SorState unit :=
  hasFetched <- gets (fun s : SorState => fst s);;
  if hasFetched then ret tt
  else
    sor_emit (SorConsole "time fetchPoolsForSor");;
    sor_emit FetchPools;;
    pools <- lift_result fetchPools;;
    sor_emit (SorConsole "pools");;
    modify (fun s : SorState => (true, snd s));;
    sor_emit (SorConsole "timeEnd fetchPoolsForSor").

Local Close Scope action_scope.

Definition fetches (tr : list SorEvent) : nat :=
  List.length (filter (fun e => match e with FetchPools => true | _ => false end) tr).

(** ** The weighted pool service

    The methods of [WeightedPoolService] that look a created pool up and
    seed it.  [PoolEnv] gathers what they reach outside the class: the
    provider, the configured addresses, the factory interface, the
    multicaller and the helpers imported from other modules. *)
Module WeightedPoolService.

Definition JOIN_KIND_INIT : Z := 0.

(** ethers' [AddressZero]. *)
Definition AddressZero : string := "0x0000000000000000000000000000000000000000".

Record Log : Type := mkLog { log_address : string; log_data : string }.

(** A parsed log: the event name and, for [PoolCreated], [args.pool]. *)
Record LogDescription : Type := mkLogDescription {
  log_name : string;
  args_pool : string
}.

Record Receipt : Type := mkReceipt { logs : list Log }.

Record CreatePoolReturn : Type := mkCreatePoolReturn {
  created_id : string;
  created_address : string
}.

(** One [multicaller.call(path, address, function, params)]. *)
Record Call : Type := mkCall {
  call_path : string;
  call_address : option string;
  call_function : string;
  call_params : list string
}.

(** What [multicaller.execute()] resolves to, as far as it is read. *)
Record Multicall : Type := mkMulticall {
  mc_weights : list Z;
  mc_name : string;
  mc_owner : string;
  mc_symbol : string;
  mc_tokenInfo_tokens : list string
}.

Record PoolDetails : Type := mkPoolDetails {
  details_weights : list string;
  details_name : string;
  details_owner : string;
  details_symbol : string;
  details_tokens : list string
}.

Record JoinPoolRequest : Type := mkJoinPoolRequest {
  assets : list string;
  maxAmountsIn : list string;
  userData : string;
  fromInternalBalance : bool
}.

(** The [joinPool] transaction handed to the transaction builder (the
    constant ABI apart). *)
Record JoinTransaction : Type := mkJoinTransaction {
  tx_contractAddress : option string;
  tx_action : string;
  tx_poolId : string;
  tx_sender : string;
  tx_receiver : string;
  tx_request : JoinPoolRequest;
  tx_value : Z
}.

(** [parseLog] is [None] where the interface throws; [isSameAddress] is
    the helper of ['@/lib/utils']; [EPBigNumber_from] and [encode_init]
    (the ABI coder applied to the join kind and the balances) throw on what
    is not an integer. *)
Record PoolEnv : Type := mkPoolEnv {
  getTransactionReceipt : string -> result (option Receipt);
  weightedPoolFactory : option string;
  vault : option string;
  nativeAsset_address : string;
  parseLog : Log -> option LogDescription;
  getPoolId : string -> result string;
  multicall_execute : list Call -> result Multicall;
  formatUnits : Z -> Z -> string;
  isSameAddress : string -> string -> bool;
  EPBigNumber_from : string -> result Z;
  encode_init : Z -> list string -> result string;
  sendTransaction : JoinTransaction -> result TransactionResponse
}.

Inductive PoolEvent : Type :=
  | Console (label : string)
  | GetTransactionReceipt (hash : string)
  | GetPoolId (poolAddress : string)
  | Execute (calls : list Call)
  | ProviderGetSigner
  | SendTransaction (tx : JoinTransaction).

Definition is_provider_call (e : PoolEvent) : bool :=
  match e with
  | Console _ => false
  | _ => true
  end.

(** [a === b] for a string and a possibly undefined one. *)
Definition strict_eq (a : string) (b : option string) : bool :=
  match b with
  | Some b' => String.eqb a b'
  | None => false
  end.

Local Open Scope action_scope.

Definition retrievePoolIdAndAddress (env : PoolEnv) (createHash : string)
    : M (list PoolEvent) (option CreatePoolReturn) :=
  emit (Console "retrievePoolIdAndAddress");;
  emit (GetTransactionReceipt createHash);;
  receipt <- lift_result (getTransactionReceipt env createHash);;
  emit (Console "receipt");;
  match receipt with
  | None => ret None
  | Some receipt =>
      let factoryLogs :=
        filter (fun log => strict_eq (log_address log) (weightedPoolFactory env))
               (logs receipt) in
      modify (fun tr => (tr ++ map (fun _ => Console "log") factoryLogs)%list);;
      let parsedLogs := map (parseLog env) factoryLogs in
      let poolCreationEvent :=
        find (fun parsedLog =>
                match parsedLog with
                | Some p => String.eqb (log_name p) "PoolCreated"
                | None => false
                end) parsedLogs in
      emit (Console "poolCreationEvent");;
      match poolCreationEvent with
      | Some (Some poolCreationEvent) =>
          let poolAddress := args_pool poolCreationEvent in
          emit (GetPoolId poolAddress);;
          poolId <- lift_result (getPoolId env poolAddress);;
          ret (Some (mkCreatePoolReturn poolId poolAddress))
      | _ => ret None
      end
  end.

Definition retrievePoolDetails (env : PoolEnv) (hash : string)
    : M (list PoolEvent) (option PoolDetails) :=
  if negb (truthy hash) then ret None
  else
    poolDetails <- retrievePoolIdAndAddress env hash;;
    match poolDetails with
    | None => ret None
    | Some poolDetails =>
        let poolAddress := created_address poolDetails in
        let vaultAddress := vault env in
        let calls :=
          [mkCall "name" (Some poolAddress) "name" [];
           mkCall "symbol" (Some poolAddress) "symbol" [];
           mkCall "owner" (Some poolAddress) "getOwner" [];
           mkCall "weights" (Some poolAddress) "getNormalizedWeights" [];
           mkCall "tokenInfo" vaultAddress "getPoolTokens" [created_id poolDetails]] in
        emit (Execute calls);;
        multicall <- lift_result (multicall_execute env calls);;
        ret (Some (mkPoolDetails
                     (map (fun weight => formatUnits env weight 18) (mc_weights multicall))
                     (mc_name multicall) (mc_owner multicall)
                     (mc_symbol multicall) (mc_tokenInfo_tokens multicall)))
    end.

(** [value] walks [amountsIn] with the index [i] and the running [value],
    which starts as ["0"]; [value_step] is the body of its [forEach]. *)
Definition value_step (env : PoolEnv) (tokensIn : list string)
    (state : nat * string) (amount : string) : nat * string :=
  let '(i, value) := state in
  (S i,
   if strict_eq (nativeAsset_address env) (nth_error tokensIn i)
   then amount else value).

Definition value_string (env : PoolEnv) (amountsIn tokensIn : list string) : string :=
  snd (fold_left (value_step env tokensIn) amountsIn (0%nat, "0")).

Definition value (env : PoolEnv) (amountsIn tokensIn : list string) : result Z :=
  EPBigNumber_from env (value_string env amountsIn tokensIn).

Definition parseTokensIn (env : PoolEnv) (tokensIn : list string) : list string :=
  map (fun address =>
         if isSameAddress env address (nativeAsset_address env)
         then AddressZero else address)
      tokensIn.

Definition initJoin (env : PoolEnv) (poolId sender receiver : string)
    (tokenAddresses initialBalancesString : list string)
    : M (list PoolEvent) TransactionResponse :=
  initUserData <- lift_result (encode_init env JOIN_KIND_INIT initialBalancesString);;
  value <- lift_result (value env initialBalancesString tokenAddresses);;
  let tokenAddresses := parseTokensIn env tokenAddresses in
  emit (Console "tokenAddresses");;
  let joinPoolRequest :=
    mkJoinPoolRequest tokenAddresses initialBalancesString initUserData false in
  let vaultAddress := vault env in
  let tx := mkJoinTransaction vaultAddress "joinPool" poolId sender receiver
                              joinPoolRequest value in
  emit ProviderGetSigner;;
  emit (SendTransaction tx);;
  lift_result (sendTransaction env tx).

Local Close Scope action_scope.

End WeightedPoolService.

(** Sample surroundings of the script: every address is well formed, every
    logo request is answered with [status], the subgraph with [gauges]. *)
Definition answering_env (status : Z) (gauges : option (list string)) : ScriptEnv :=
  mkScriptEnv (fun a => Resolved a) (fun _ => Resolved status) None
    (fun _ => Resolved (mkPoolJson "0xpool01" "0xpool" "Weighted" "B-80BAL-20WETH"
                          [PoolToken.mk_json "0xbal" (Some "0.8") "BAL";
                           PoolToken.mk_json "0xweth" None "WETH";
                           PoolToken.mk_json "0xdai" (Some "") "DAI"]))
    (fun _ => Resolved "https://subgraph/gauges")
    (fun _ _ => Resolved (mkGaugesJson gauges)).

(** A log that counts as the pool creation: emitted by the configured
    factory and parsed as a [PoolCreated] event. *)
Definition is_creation_log (env : WeightedPoolService.PoolEnv)
    (log : WeightedPoolService.Log) : bool :=
  WeightedPoolService.strict_eq (WeightedPoolService.log_address log)
                                (WeightedPoolService.weightedPoolFactory env)
  && match WeightedPoolService.parseLog env log with
     | Some p => String.eqb (WeightedPoolService.log_name p) "PoolCreated"
     | None => false
     end.

(** Sample surroundings of the pool service.  The factory is "0xfactory";
    a log's data is the event name, and for [PoolCreated] the pool is
    "0xpool"; addresses are compared without regard to the case of "0xETH". *)
Definition sample_logs : list WeightedPoolService.Log :=
  [WeightedPoolService.mkLog "0xother" "PoolCreated";
   WeightedPoolService.mkLog "0xfactory" "Transfer";
   WeightedPoolService.mkLog "0xfactory" "PoolCreated"].

Definition sample_pool_env (receipt : option WeightedPoolService.Receipt)
    : WeightedPoolService.PoolEnv :=
  WeightedPoolService.mkPoolEnv
    (fun _ => Resolved receipt)
    (Some "0xfactory") (Some "0xvault") "0xETH"
    (fun log =>
       if String.eqb (WeightedPoolService.log_data log) "garbage" then None
       else Some (WeightedPoolService.mkLogDescription
                    (WeightedPoolService.log_data log)
                    (if String.eqb (WeightedPoolService.log_address log) "0xfactory"
                     then "0xpool" else "0xfake")))
    (fun _ => Resolved "0xpool01")
    (fun _ => Resolved (WeightedPoolService.mkMulticall [8; 2] "Pool" "0xowner" "P" []))
    (fun w _ => BigNumber.nat_string w)
    (fun a b => String.eqb a b || (String.eqb a "0xeth" && String.eqb b "0xETH"))
    (fun s => match BigNumber.of_string s with
              | Some x => Resolved (BigNumber.coeff x)
              | None => Rejected "invalid BigNumber string"
              end)
    (fun _ _ => Resolved "0xuserdata")
    (fun _ => Resolved "0xtx").

(** A store in which the bridge has the canonical lock and Arbitrum still
    holds an older one. *)
Definition syncing_store : Store :=
  mkStore (Some (mkOmniEscrowLocksResponse
                   [OmniVotingEscrowLock.mk "10" "1" "0xabc"])) false
          (Some (mkVotingEscrowLocksResponse
                   [VotingEscrowLock.mk "10" "1" 1700000000])) false
          (Some (mkVotingEscrowLocksResponse
                   [VotingEscrowLock.mk "5" "0.5" 1690000000])) false.


(** * Properties *)

(** ** Classifier lemmas *)

Lemma allEqual_pairwise (l : list string) :
  allEqual l = true <-> (forall x y, In x l -> In y l -> x = y).
Proof.
  destruct l as [|a l]; simpl.
  - split; [intros _ x y [] | reflexivity].
  - rewrite String.eqb_refl. simpl. rewrite forallb_forall. split.
    + intros H x y Hx Hy.
      assert (E : forall z, a = z \/ In z l -> a = z).
      { intros z [<-|Hz]; [reflexivity|]. apply String.eqb_eq. now apply H. }
      rewrite <- (E x Hx). now apply E.
    + intros H x Hx. apply String.eqb_eq. apply H; [now left | now right].
Qed.

Lemma allEqual3 (a b c : string) :
  allEqual [a; b; c] = true <-> a = b /\ a = c.
Proof.
  simpl. rewrite String.eqb_refl, !andb_true_r. simpl.
  rewrite andb_true_iff, !String.eqb_eq. reflexivity.
Qed.

Lemma allEqual2 (a b : string) : allEqual [a; b] = true <-> a = b.
Proof.
  simpl. rewrite String.eqb_refl, andb_true_r. simpl. apply String.eqb_eq.
Qed.

(** C1: three records with pairwise equal biases and pairwise equal slopes
    are classified [Synced]. *)
Theorem getNetworkSyncState_synced (bridged canonical secondary : EscrowLockData) :
  bias bridged = bias canonical ->
  bias bridged = bias secondary ->
  bias canonical = bias secondary ->
  slope bridged = slope canonical ->
  slope bridged = slope secondary ->
  slope canonical = slope secondary ->
  getNetworkSyncState bridged canonical secondary = Synced.
Proof.
  intros Hb1 Hb2 _ Hs1 Hs2 _. unfold getNetworkSyncState.
  assert (B : allEqual [bias bridged; bias canonical; bias secondary] = true)
    by (apply allEqual3; split; assumption).
  assert (S : allEqual [slope bridged; slope canonical; slope secondary] = true)
    by (apply allEqual3; split; assumption).
  cbv zeta. rewrite B, S. reflexivity.
Qed.

Lemma getNetworkSyncState_synced_witness :
  getNetworkSyncState (mkEscrowLockData "10" "1") (mkEscrowLockData "10" "1")
                      (mkEscrowLockData "10" "1") = Synced.
Proof.
  apply (getNetworkSyncState_synced
           (mkEscrowLockData "10" "1") (mkEscrowLockData "10" "1")
           (mkEscrowLockData "10" "1")); reflexivity.
Defined.

(** C2: when the bridged record equals the canonical one in bias and slope
    and the secondary record differs from the bridged one in both bias and
    slope, the classifier returns [Syncing]. *)
Theorem getNetworkSyncState_syncing (bridged canonical secondary : EscrowLockData) :
  bias bridged = bias canonical ->
  slope bridged = slope canonical ->
  bias secondary <> bias bridged ->
  slope secondary <> slope bridged ->
  getNetworkSyncState bridged canonical secondary = Syncing.
Proof.
  intros Hb Hs Nb Ns. unfold getNetworkSyncState. cbv zeta.
  assert (B3 : allEqual [bias bridged; bias canonical; bias secondary] = false).
  { apply not_true_is_false. rewrite allEqual3. intros [_ E]. now apply Nb. }
  assert (B2 : allEqual [bias bridged; bias canonical] = true) by now apply allEqual2.
  assert (S2 : allEqual [slope bridged; slope canonical] = true) by now apply allEqual2.
  assert (Ns' : String.eqb (slope bridged) (slope secondary) = false).
  { apply String.eqb_neq. intros E. now apply Ns. }
  assert (Nb' : String.eqb (bias bridged) (bias secondary) = false).
  { apply String.eqb_neq. intros E. now apply Nb. }
  rewrite B3, B2, S2, Ns', Nb'. reflexivity.
Qed.

Lemma getNetworkSyncState_syncing_witness :
  getNetworkSyncState (mkEscrowLockData "10" "1") (mkEscrowLockData "10" "1")
                      (mkEscrowLockData "5" "0.5") = Syncing.
Proof.
  apply (getNetworkSyncState_syncing
           (mkEscrowLockData "10" "1") (mkEscrowLockData "10" "1")
           (mkEscrowLockData "5" "0.5")); simpl; congruence.
Defined.

(** C3: when the bridged record equals the canonical one in bias and slope
    and the secondary record differs from them in exactly one of the two
    fields, the classifier returns [Unsynced] (and so not [Syncing]). *)
Theorem getNetworkSyncState_one_field_unsynced
    (bridged canonical secondary : EscrowLockData) :
  bias bridged = bias canonical ->
  slope bridged = slope canonical ->
  (bias secondary <> bias bridged /\ slope secondary = slope bridged) \/
  (bias secondary = bias bridged /\ slope secondary <> slope bridged) ->
  getNetworkSyncState bridged canonical secondary = Unsynced.
Proof.
  intros Hb Hs H. unfold getNetworkSyncState. cbv zeta.
  assert (B2 : allEqual [bias bridged; bias canonical] = true) by now apply allEqual2.
  assert (S2 : allEqual [slope bridged; slope canonical] = true) by now apply allEqual2.
  rewrite B2, S2.
  destruct H as [[Nb Es] | [Eb Ns]].
  - assert (B3 : allEqual [bias bridged; bias canonical; bias secondary] = false).
    { apply not_true_is_false. rewrite allEqual3. intros [_ E]. now apply Nb. }
    rewrite B3, Es, String.eqb_refl. reflexivity.
  - assert (S3 : allEqual [slope bridged; slope canonical; slope secondary] = false).
    { apply not_true_is_false. rewrite allEqual3. intros [_ E]. now apply Ns. }
    rewrite S3, Eb, String.eqb_refl, andb_false_r, andb_false_r. reflexivity.
Qed.

Lemma getNetworkSyncState_one_field_unsynced_witness :
  getNetworkSyncState (mkEscrowLockData "10" "1") (mkEscrowLockData "10" "1")
                      (mkEscrowLockData "5" "1") = Unsynced /\
  getNetworkSyncState (mkEscrowLockData "10" "1") (mkEscrowLockData "10" "1")
                      (mkEscrowLockData "10" "0.5") = Unsynced.
Proof.
  split.
  - apply (getNetworkSyncState_one_field_unsynced
             (mkEscrowLockData "10" "1") (mkEscrowLockData "10" "1")
             (mkEscrowLockData "5" "1")); simpl; try reflexivity.
    left. split; [discriminate | reflexivity].
  - apply (getNetworkSyncState_one_field_unsynced
             (mkEscrowLockData "10" "1") (mkEscrowLockData "10" "1")
             (mkEscrowLockData "10" "0.5")); simpl; try reflexivity.
    right. split; [reflexivity | discriminate].
Defined.

(** ** The fast path *)

Lemma allNetworksUnsynced_empty (st : Store) (r : OmniEscrowLocksResponse) :
  omniEscrowResponse st = Some r ->
  omniVotingEscrowLocks r = [] ->
  allNetworksUnsynced st = true.
Proof. intros H E. unfold allNetworksUnsynced. rewrite H, E. reflexivity. Qed.

(** C4: when the bridge-mirror response holds zero rows, the sync-state
    mapping reports [Unsynced] for Polygon, Arbitrum, Gnosis and Optimism and
    [isLoading] is false, whatever the other two queries hold and whatever
    the loading flags are. *)
Theorem empty_bridge_all_unsynced (st : Store) (r : OmniEscrowLocksResponse) :
  omniEscrowResponse st = Some r ->
  omniVotingEscrowLocks r = [] ->
  (exists o, networksSyncState st = Some o /\
             forall n, In n allNetworks ->
                       JsObj.get o (Network_id n) = Some Unsynced) /\
  isLoading st = false.
Proof.
  intros H E. pose proof (allNetworksUnsynced_empty st r H E) as F.
  unfold networksSyncState, isLoading. rewrite F. split; [|reflexivity].
  eexists. split; [reflexivity|].
  intros n Hn. simpl in Hn.
  destruct Hn as [<-|[<-|[<-|[<-|[]]]]]; reflexivity.
Qed.

Lemma empty_bridge_all_unsynced_witness :
  let st := mkStore (Some (mkOmniEscrowLocksResponse [])) true
                    None true
                    (Some (mkVotingEscrowLocksResponse
                             [VotingEscrowLock.mk "10" "1" 1700000000])) true in
  (exists o, networksSyncState st = Some o /\
             forall n, In n allNetworks ->
                       JsObj.get o (Network_id n) = Some Unsynced) /\
  isLoading st = false.
Proof.
  intros st.
  apply (empty_bridge_all_unsynced st (mkOmniEscrowLocksResponse [])); reflexivity.
Defined.

(** ** Outside the fast path *)

Lemma networksSyncState_ready (st : Store)
    (omni : OmniVotingEscrowLock.t) (ve : VotingEscrowLocksByNetwork) :
  allNetworksUnsynced st = false ->
  isLoading st = false ->
  omniEscrowLocks st = Some omni ->
  votingEscrowLocks st = Some ve ->
  networksSyncState st =
    Some [(Network_id ARBITRUM,
           getNetworkSyncState
             (mkEscrowLockData (OmniVotingEscrowLock.bias omni)
                               (OmniVotingEscrowLock.slope omni))
             (mkEscrowLockData (VotingEscrowLock.bias (at_MAINNET ve))
                               (VotingEscrowLock.slope (at_MAINNET ve)))
             (mkEscrowLockData (VotingEscrowLock.bias (at_ARBITRUM ve))
                               (VotingEscrowLock.slope (at_ARBITRUM ve))))].
Proof.
  intros F L O V. unfold networksSyncState. rewrite F, L, O, V. reflexivity.
Qed.

Lemma networksSyncState_pending (st : Store) :
  allNetworksUnsynced st = false ->
  isLoading st = true \/ omniEscrowLocks st = None \/ votingEscrowLocks st = None ->
  networksSyncState st = None.
Proof.
  intros F H. unfold networksSyncState. rewrite F.
  destruct H as [L | [O | V]].
  - rewrite L. reflexivity.
  - rewrite O. simpl. rewrite orb_true_r. reflexivity.
  - rewrite V. simpl. rewrite !orb_true_r. reflexivity.
Qed.

Lemma votingEscrowLocks_None (st : Store) :
  votingEscrowLocks st = None <->
  first_lock (mainnetVotingEscrowResponse st) = None \/
  first_lock (arbitrumVotingEscrowResponse st) = None.
Proof.
  unfold votingEscrowLocks.
  destruct (first_lock (mainnetVotingEscrowResponse st)),
           (first_lock (arbitrumVotingEscrowResponse st)); split;
    try discriminate; intros; auto; destruct H; discriminate.
Qed.

(** The reading of C6 fails at [settled_store]: outside the fast path, with
    nothing loading and all three records present, Polygon (a participating
    network) has neither a sync state nor a projected balance. *)
Lemma every_network_reported_counterexample :
  ~ (forall (parse : string -> BigNumber.num) (now_ms : Z) (st : Store),
       allNetworksUnsynced st = false ->
       isLoading st = false ->
       forall n, In n allNetworks ->
         (exists o s, networksSyncState st = Some o /\
                      JsObj.get o (Network_id n) = Some s) /\
         (exists o b, l2VeBalBalances parse now_ms st = Some o /\
                      JsObj.get o (Network_id n) = Some b)).
Proof.
  intros H.
  destruct (H BigNumber.parse_decimal 1700000010000 settled_store eq_refl eq_refl
              POLYGON) as [[o [s [E G]]] _].
  - simpl. auto.
  - vm_compute in E. injection E as <-. vm_compute in G. discriminate.
Qed.

(** C6 (what the code does, against the claim): outside the fast path, once
    nothing is loading and the three records are present, the sync-state
    mapping and the projected balances each hold exactly one entry, for
    Arbitrum: the state computed by the classifier from the bridged, mainnet
    and Arbitrum records, and the decay balance of the Arbitrum record.
    Polygon, Gnosis and Optimism, which [allNetworks] lists as supported and
    the fast path reports, have no entry in either. *)
Theorem arbitrum_only_reported (parse : string -> BigNumber.num) (now_ms : Z)
    (st : Store) (omni : OmniVotingEscrowLock.t) (ve : VotingEscrowLocksByNetwork) :
  allNetworksUnsynced st = false ->
  isLoading st = false ->
  omniEscrowLocks st = Some omni ->
  votingEscrowLocks st = Some ve ->
  exists states balances,
    networksSyncState st = Some states /\
    l2VeBalBalances parse now_ms st = Some balances /\
    JsObj.get states (Network_id ARBITRUM) =
      Some (getNetworkSyncState
              (mkEscrowLockData (OmniVotingEscrowLock.bias omni)
                                (OmniVotingEscrowLock.slope omni))
              (mkEscrowLockData (VotingEscrowLock.bias (at_MAINNET ve))
                                (VotingEscrowLock.slope (at_MAINNET ve)))
              (mkEscrowLockData (VotingEscrowLock.bias (at_ARBITRUM ve))
                                (VotingEscrowLock.slope (at_ARBITRUM ve)))) /\
    JsObj.get balances (Network_id ARBITRUM) =
      Some (calculateVeBAlBalance parse now_ms
              (VotingEscrowLock.bias (at_ARBITRUM ve))
              (VotingEscrowLock.slope (at_ARBITRUM ve))
              (VotingEscrowLock.timestamp (at_ARBITRUM ve))) /\
    JsObj.keys states = [Network_id ARBITRUM] /\
    JsObj.keys balances = [Network_id ARBITRUM] /\
    (forall n, In n allNetworks -> n <> ARBITRUM ->
       JsObj.get states (Network_id n) = None /\
       JsObj.get balances (Network_id n) = None) /\
    forall n, n <> ARBITRUM ->
      JsObj.get states (Network_id n) = None /\
      JsObj.get balances (Network_id n) = None.
Proof.
  intros F L O V.
  rewrite (networksSyncState_ready st omni ve F L O V).
  unfold l2VeBalBalances. rewrite V.
  eexists. eexists. split; [reflexivity|]. split; [reflexivity|].
  repeat split; try reflexivity; destruct n; try reflexivity; congruence.
Qed.

Lemma arbitrum_only_reported_witness :
  exists states balances,
    networksSyncState settled_store = Some states /\
    l2VeBalBalances BigNumber.parse_decimal 1700000010000 settled_store
      = Some balances /\
    JsObj.get states (Network_id ARBITRUM) = Some Synced /\
    JsObj.get balances (Network_id ARBITRUM) = Some "0.0000" /\
    JsObj.keys states = [Network_id ARBITRUM] /\
    JsObj.keys balances = [Network_id ARBITRUM] /\
    (forall n, In n allNetworks -> n <> ARBITRUM ->
       JsObj.get states (Network_id n) = None /\
       JsObj.get balances (Network_id n) = None) /\
    forall n, n <> ARBITRUM ->
      JsObj.get states (Network_id n) = None /\
      JsObj.get balances (Network_id n) = None.
Proof.
  exact (arbitrum_only_reported BigNumber.parse_decimal 1700000010000 settled_store
           (OmniVotingEscrowLock.mk "10" "1" "0xabc")
           (mkVotingEscrowLocksByNetwork
              (VotingEscrowLock.mk "10" "1" 1700000000)
              (VotingEscrowLock.mk "10" "1" 1700000000))
           eq_refl eq_refl eq_refl eq_refl).
Defined.

(** C7: the bridge identifier table.  Polygon, Arbitrum and Optimism have
    an identifier; Gnosis, which [allNetworks] lists as supported, has
    none. *)
Theorem LayerZeroNetworkId_entries :
  JsObj.get LayerZeroNetworkId (Network_id POLYGON) = Some 109 /\
  JsObj.get LayerZeroNetworkId (Network_id ARBITRUM) = Some 110 /\
  JsObj.get LayerZeroNetworkId (Network_id OPTIMISM) = Some 111 /\
  In GNOSIS allNetworks /\
  JsObj.get LayerZeroNetworkId (Network_id GNOSIS) = None.
Proof. repeat split; simpl; auto. Qed.

Lemma JsObj_get_some_key {V} (o : JsObj.t V) (k : Z) (v : V) :
  JsObj.get o k = Some v -> In k (JsObj.keys o).
Proof.
  induction o as [|[k' v'] o IH]; cbn; [discriminate|].
  destruct (k =? k') eqn:E; [apply Z.eqb_eq in E; auto | auto].
Qed.

(** The networks listed under a state are exactly those the mapping gives
    that state. *)
Lemma bucket_members (o : JsObj.t NetworkSyncState) (s : NetworkSyncState) (k : Z) :
  In k (filter (has_state o s) (JsObj.keys o)) <-> JsObj.get o k = Some s.
Proof.
  rewrite filter_In. unfold has_state. split.
  - intros [_ H]. destruct (JsObj.get o k) as [s'|]; [|discriminate].
    destruct s', s; cbn in H; congruence.
  - intros H. split; [exact (JsObj_get_some_key o k s H)|].
    rewrite H. destruct s; reflexivity.
Qed.

(** C10: outside the fast path, while a query is loading or one of the
    three lock records is missing, the sync-state mapping is null and the
    partition is exactly [{ synced: [], unsynced: [] }], with no third key;
    in every other case outside the fast path the partition carries, under
    the key ["sincing"], which the declared result type does not have, the
    networks that the mapping classifies as [Syncing] (Arbitrum when its
    state is [Syncing], nothing otherwise), and has no key ["syncing"]. *)
Theorem partition_shape (st : Store) :
  allNetworksUnsynced st = false ->
  let pending :=
    isLoadingOmniEscrow st = true \/ isLoadingVotingEscrow st = true \/
    isLoadingVotingEscrowArbitrum st = true \/
    omniEscrowLocks st = None \/
    first_lock (mainnetVotingEscrowResponse st) = None \/
    first_lock (arbitrumVotingEscrowResponse st) = None in
  (pending ->
     networksSyncState st = None /\
     networksBySyncState st = [("synced", []); ("unsynced", [])] /\
     lookup_key (networksBySyncState st) "sincing" = None /\
     lookup_key (networksBySyncState st) "syncing" = None) /\
  (~ pending ->
     exists o sincing,
       networksSyncState st = Some o /\
       lookup_key (networksBySyncState st) "sincing" = Some sincing /\
       (forall k, In k sincing <-> JsObj.get o k = Some Syncing) /\
       sincing = match JsObj.get o (Network_id ARBITRUM) with
                 | Some Syncing => [Network_id ARBITRUM]
                 | _ => []
                 end /\
       map fst (networksBySyncState st) = ["synced"; "unsynced"; "sincing"] /\
       ~ In "sincing" NetworknetworksBySyncState /\
       lookup_key (networksBySyncState st) "syncing" = None).
Proof.
  intros F pending. split.
  - intros P.
    assert (N : networksSyncState st = None).
    { apply networksSyncState_pending; [exact F|].
      unfold isLoading. rewrite F.
      destruct P as [P|[P|[P|[P|[P|P]]]]].
      + left. rewrite P. reflexivity.
      + left. rewrite P. apply orb_true_iff. left. apply orb_true_r.
      + left. rewrite P. apply orb_true_r.
      + right. left. exact P.
      + right. right. apply votingEscrowLocks_None. now left.
      + right. right. apply votingEscrowLocks_None. now right. }
    unfold networksBySyncState. rewrite N. repeat split.
  - intros NP. subst pending.
    destruct (isLoadingOmniEscrow st) eqn:L1; [now exfalso; apply NP; auto|].
    destruct (isLoadingVotingEscrow st) eqn:L2; [now exfalso; apply NP; auto|].
    destruct (isLoadingVotingEscrowArbitrum st) eqn:L3;
      [now exfalso; apply NP; auto 6|].
    destruct (omniEscrowLocks st) as [omni|] eqn:O;
      [|now exfalso; apply NP; auto 6].
    destruct (votingEscrowLocks st) as [ve|] eqn:V.
    + assert (L : isLoading st = false).
      { unfold isLoading. rewrite F, L1, L2, L3. reflexivity. }
      pose proof (networksSyncState_ready st omni ve F L O V) as R.
      set (state := getNetworkSyncState _ _ _) in R.
      exists [(Network_id ARBITRUM, state)].
      exists (filter (has_state [(Network_id ARBITRUM, state)] Syncing)
                     (JsObj.keys [(Network_id ARBITRUM, state)])).
      split; [exact R|]. unfold networksBySyncState. rewrite R.
      split; [reflexivity|]. split; [intros k; apply bucket_members|].
      split; [destruct state; reflexivity|].
      split; [reflexivity|]. split; [|reflexivity].
      cbn. intuition discriminate.
    + exfalso. apply NP. apply votingEscrowLocks_None in V.
      destruct V; auto 8.
Qed.

Lemma partition_shape_witness :
  networksSyncState initial_store = None /\
  networksBySyncState initial_store
    = [("synced", []); ("unsynced", [])] /\
  lookup_key (networksBySyncState settled_store) "sincing" = Some [] /\
  lookup_key (networksBySyncState syncing_store) "sincing"
    = Some [Network_id ARBITRUM].
Proof.
  destruct (partition_shape initial_store eq_refl)
    as [P _].
  destruct (partition_shape settled_store eq_refl) as [_ R].
  destruct (partition_shape syncing_store eq_refl) as [_ R'].
  specialize (P (or_introl eq_refl)). destruct P as [N [B _]].
  assert (NP : ~ (isLoadingOmniEscrow settled_store = true \/
                  isLoadingVotingEscrow settled_store = true \/
                  isLoadingVotingEscrowArbitrum settled_store = true \/
                  omniEscrowLocks settled_store = None \/
                  first_lock (mainnetVotingEscrowResponse settled_store) = None \/
                  first_lock (arbitrumVotingEscrowResponse settled_store) = None))
    by (simpl; intuition discriminate).
  assert (NP' : ~ (isLoadingOmniEscrow syncing_store = true \/
                   isLoadingVotingEscrow syncing_store = true \/
                   isLoadingVotingEscrowArbitrum syncing_store = true \/
                   omniEscrowLocks syncing_store = None \/
                   first_lock (mainnetVotingEscrowResponse syncing_store) = None \/
                   first_lock (arbitrumVotingEscrowResponse syncing_store) = None))
    by (simpl; intuition discriminate).
  destruct (R NP) as [o [l [E [S [_ [C _]]]]]].
  destruct (R' NP') as [o' [l' [E' [S' [_ [C' _]]]]]].
  split; [exact N | split; [exact B | split]].
  - rewrite S, C. vm_compute in E. injection E as <-. reflexivity.
  - rewrite S', C'. vm_compute in E'. injection E' as <-. reflexivity.
Defined.

(** ** The [refetch] action *)

Lemma refetch_run (r : Refetchers) (order : SettleOrder) (st : Store) :
  refetch r order (st, []) =
    (Resolved tt,
     if remoteUser_resolved (after_initial_fetches r order st)
     then (refetchVotingEscrowArbitrum r (after_initial_fetches r order st),
           [Called OmniEscrow; Called VotingEscrow] ++ settle_events order
             ++ [Called VotingEscrowArbitrum; Settled VotingEscrowArbitrum])%list
     else (after_initial_fetches r order st,
           [Called OmniEscrow; Called VotingEscrow] ++ settle_events order)%list).
Proof.
  unfold refetch, remoteUser_resolved, bind, call, settle, modify, gets, ret.
  destruct order; simpl;
    match goal with
    | |- context [remoteUser ?s] => destruct (remoteUser s) as [u|]
    end; try reflexivity; destruct (truthy u); reflexivity.
Qed.

(** C8, as stated, fails when "at call time" is the moment [refetch] is
    called: with no [remoteUser] resolved at that moment, the bridge-mirror
    fetch can bring one, and the secondary fetcher is then called. *)
Lemma refetch_call_time_counterexample :
  ~ (forall (r : Refetchers) (order : SettleOrder) (st : Store),
       calls_to VotingEscrowArbitrum (snd (snd (refetch r order (st, [])))) = 1%nat
       <-> remoteUser_resolved st = true).
Proof.
  intros H.
  destruct (H settling_refetchers OmniEscrowFirst initial_store) as [H1 _].
  specialize (H1 eq_refl). discriminate H1.
Qed.

(** C8, amended: every call to [refetch] calls the bridge-mirror fetcher and
    the canonical-chain fetcher exactly once each, both before either
    settles; once both have settled it calls the secondary-network fetcher
    exactly once if a [remoteUser] is resolved in the store as the two
    fetches left it, and not at all otherwise. *)
Theorem refetch_calls (r : Refetchers) (order : SettleOrder) (st : Store) :
  let mid := after_initial_fetches r order st in
  let tr := snd (snd (refetch r order (st, []))) in
  fst (refetch r order (st, [])) = Resolved tt /\
  calls_to OmniEscrow tr = 1%nat /\
  calls_to VotingEscrow tr = 1%nat /\
  (exists rest,
     tr = ([Called OmniEscrow; Called VotingEscrow] ++ settle_events order ++ rest)%list /\
     rest = if remoteUser_resolved mid
            then [Called VotingEscrowArbitrum; Settled VotingEscrowArbitrum]
            else []) /\
  (calls_to VotingEscrowArbitrum tr = 1%nat <-> remoteUser_resolved mid = true) /\
  (calls_to VotingEscrowArbitrum tr = 0%nat <-> remoteUser_resolved mid = false).
Proof.
  intros mid tr. subst tr. rewrite refetch_run. fold mid.
  destruct (remoteUser_resolved mid); destruct order; simpl;
    repeat split; try reflexivity; try discriminate;
    try (eexists; split; reflexivity).
Qed.

(** ** The [sync] action *)

Lemma sync_present (env : SyncEnv) (network : Network) (a : string) :
  omniVotingEscrow_address env = Some a ->
  a <> "" ->
  sync env network [] =
    let signer := getSigner env in
    let c := new_OmniVotingEscrow env a in
    let chainId := JsObj.get LayerZeroNetworkId (Network_id network) in
    let before :=
      [ConsoleLog "contractAddress"; ConsoleLog "network"; GetSigner;
       NewOmniVotingEscrow a; EstimateSendUserBalance signer chainId] in
    match estimateSendUserBalance c signer chainId with
    | Rejected e => (Rejected e, before)
    | Resolved tx =>
        let params := mkSendUserBalanceParams signer (account env) chainId (nativeFee tx) in
        (sendUserBalance c params,
         (before ++ [ConsoleLog "nativeFee"; SendUserBalance params])%list)
    end.
Proof.
  intros H N. unfold sync. rewrite H.
  assert (T : truthy a = true).
  { unfold truthy. apply negb_true_iff. now apply String.eqb_neq. }
  rewrite T. cbv zeta.
  unfold bind, emit, modify, lift_result. simpl.
  destruct (estimateSendUserBalance _ _ _); reflexivity.
Qed.

(** C9: with no bridge contract address configured, [sync] rejects before
    anything else happens: no call of any kind is made.  With an address,
    fee estimation is called first; when it rejects, [sync] rejects with it
    and [sendUserBalance] is never called; when it resolves, [sendUserBalance]
    is called next, once, with the estimated fee. *)
Theorem sync_calls (env : SyncEnv) (network : Network) :
  let signer := getSigner env in
  let chainId := JsObj.get LayerZeroNetworkId (Network_id network) in
  (omniVotingEscrow_address env = None \/ omniVotingEscrow_address env = Some "" ->
   sync env network [] = (Rejected "No contract address found", [])) /\
  (forall a, omniVotingEscrow_address env = Some a -> a <> "" ->
     let c := new_OmniVotingEscrow env a in
     (forall e, estimateSendUserBalance c signer chainId = Rejected e ->
        fst (sync env network []) = Rejected e /\
        filter is_contract_call (snd (sync env network []))
          = [EstimateSendUserBalance signer chainId] /\
        filter is_send (snd (sync env network [])) = []) /\
     (forall tx, estimateSendUserBalance c signer chainId = Resolved tx ->
        let params := mkSendUserBalanceParams signer (account env) chainId (nativeFee tx) in
        fst (sync env network []) = sendUserBalance c params /\
        filter is_contract_call (snd (sync env network []))
          = [EstimateSendUserBalance signer chainId; SendUserBalance params])).
Proof.
  intros signer chainId. split.
  - intros [H | H]; unfold sync; rewrite H; reflexivity.
  - intros a H N c. split.
    + intros e E. rewrite (sync_present env network a H N). cbv zeta.
      fold signer chainId c. rewrite E. repeat split.
    + intros tx E params. rewrite (sync_present env network a H N). cbv zeta.
      fold signer chainId c. rewrite E. repeat split.
Qed.

Lemma sync_calls_witness :
  sync (mkSyncEnv None "signer" "0xuser" (fun _ => working_contract)) GNOSIS []
    = (Rejected "No contract address found", []) /\
  filter is_send
    (snd (sync (mkSyncEnv (Some "0xomni") "signer" "0xuser" (fun _ => failing_contract))
               ARBITRUM [])) = [] /\
  filter is_contract_call
    (snd (sync (mkSyncEnv (Some "0xomni") "signer" "0xuser" (fun _ => working_contract))
               ARBITRUM []))
    = [EstimateSendUserBalance "signer" (Some 110);
       SendUserBalance (mkSendUserBalanceParams "signer" "0xuser" (Some 110) 7)].
Proof.
  split; [|split].
  - apply (sync_calls (mkSyncEnv None "signer" "0xuser" (fun _ => working_contract)) GNOSIS).
    left. reflexivity.
  - pose proof (sync_calls
        (mkSyncEnv (Some "0xomni") "signer" "0xuser" (fun _ => failing_contract))
        ARBITRUM) as [_ H].
    destruct (H "0xomni" eq_refl) as [R _]; [discriminate|].
    apply (R "estimate failed" eq_refl).
  - pose proof (sync_calls
        (mkSyncEnv (Some "0xomni") "signer" "0xuser" (fun _ => working_contract))
        ARBITRUM) as [_ H].
    destruct (H "0xomni" eq_refl) as [_ R]; [discriminate|].
    apply (R (mkSendFees 7) eq_refl).
Defined.

(** ** Decimals: reading back what [toFixed] prints *)

Module BigNumberFacts.
Import BigNumber.






















(** *** Values as rationals *)










End BigNumberFacts.

(** ** The decay model *)



(** *** Numbers in the safe range *)












(** * Further properties of the cross-chain sync composable *)

(** ** The classifier, case by case *)

Lemma getNetworkSyncState_cases (b c s : EscrowLockData) :
  getNetworkSyncState b c s =
    if String.eqb (bias b) (bias c) && String.eqb (bias b) (bias s)
       && (String.eqb (slope b) (slope c) && String.eqb (slope b) (slope s))
    then Synced
    else if String.eqb (bias b) (bias c) && String.eqb (slope b) (slope c)
            && negb (String.eqb (slope b) (slope s))
            && negb (String.eqb (bias b) (bias s))
    then Syncing
    else Unsynced.
Proof.
  unfold getNetworkSyncState, allEqual. cbn [forallb].
  rewrite !String.eqb_refl, !andb_true_r. reflexivity.
Qed.

(** X1: the classifier answers [Synced] exactly when the three records
    carry the same bias and the same slope. *)
Theorem getNetworkSyncState_synced_iff (b c s : EscrowLockData) :
  getNetworkSyncState b c s = Synced <->
  bias b = bias c /\ bias b = bias s /\ slope b = slope c /\ slope b = slope s.
Proof.
  rewrite getNetworkSyncState_cases.
  destruct (String.eqb (bias b) (bias c)) eqn:E1;
  destruct (String.eqb (bias b) (bias s)) eqn:E2;
  destruct (String.eqb (slope b) (slope c)) eqn:E3;
  destruct (String.eqb (slope b) (slope s)) eqn:E4; cbn;
  repeat match goal with
         | H : String.eqb _ _ = true |- _ => apply String.eqb_eq in H
         | H : String.eqb _ _ = false |- _ => apply String.eqb_neq in H
         end;
  split; intros H; try discriminate; try tauto.
Qed.

(** X2: the classifier answers [Syncing] exactly when the bridged record
    equals the canonical one in bias and slope and the secondary record
    differs from it in both. *)
Theorem getNetworkSyncState_syncing_iff (b c s : EscrowLockData) :
  getNetworkSyncState b c s = Syncing <->
  bias b = bias c /\ slope b = slope c /\ bias s <> bias b /\ slope s <> slope b.
Proof.
  rewrite getNetworkSyncState_cases.
  destruct (String.eqb (bias b) (bias c)) eqn:E1;
  destruct (String.eqb (bias b) (bias s)) eqn:E2;
  destruct (String.eqb (slope b) (slope c)) eqn:E3;
  destruct (String.eqb (slope b) (slope s)) eqn:E4; cbn;
  repeat match goal with
         | H : String.eqb _ _ = true |- _ => apply String.eqb_eq in H
         | H : String.eqb _ _ = false |- _ => apply String.eqb_neq in H
         end;
  split; intros H; try discriminate; try (exfalso; intuition congruence);
  intuition congruence.
Qed.

(** X3: a bridged record that differs from the canonical one, in bias or
    in slope, is [Unsynced] whatever the secondary chain holds, even a copy
    of the canonical record. *)
Theorem stale_bridge_unsynced (b c s : EscrowLockData) :
  bias b <> bias c \/ slope b <> slope c ->
  getNetworkSyncState b c s = Unsynced.
Proof.
  intros H. rewrite getNetworkSyncState_cases.
  destruct (String.eqb (bias b) (bias c)) eqn:E1;
  destruct (String.eqb (slope b) (slope c)) eqn:E3;
  repeat match goal with
         | H : String.eqb _ _ = true |- _ => apply String.eqb_eq in H
         | H : String.eqb _ _ = false |- _ => apply String.eqb_neq in H
         end;
  try (exfalso; tauto); cbn; rewrite ?andb_false_r; reflexivity.
Qed.

Lemma stale_bridge_unsynced_witness :
  getNetworkSyncState (mkEscrowLockData "5" "0.5") (mkEscrowLockData "10" "1")
                      (mkEscrowLockData "10" "1") = Unsynced.
Proof.
  apply (stale_bridge_unsynced (mkEscrowLockData "5" "0.5")
           (mkEscrowLockData "10" "1") (mkEscrowLockData "10" "1")).
  left. discriminate.
Defined.

(** ** The partition of the networks *)

Lemma JsObj_get_key {V} (o : JsObj.t V) (k : Z) :
  In k (JsObj.keys o) -> exists v, JsObj.get o k = Some v.
Proof.
  induction o as [|[k' v'] o IH]; simpl; [intros []|].
  intros [E | H].
  - subst k'. rewrite Z.eqb_refl. eauto.
  - destruct (k =? k'); eauto.
Qed.

Lemma has_state_one (o : JsObj.t NetworkSyncState) (k : Z) :
  In k (JsObj.keys o) ->
  (has_state o Synced k = true /\ has_state o Unsynced k = false
   /\ has_state o Syncing k = false) \/
  (has_state o Synced k = false /\ has_state o Unsynced k = true
   /\ has_state o Syncing k = false) \/
  (has_state o Synced k = false /\ has_state o Unsynced k = false
   /\ has_state o Syncing k = true).
Proof.
  intros H. destruct (JsObj_get_key o k H) as [v E].
  unfold has_state. rewrite E. destruct v; cbn; tauto.
Qed.

Lemma filter_three_lengths {A} (f g h : A -> bool) (l : list A) :
  (forall x, In x l ->
     (f x = true /\ g x = false /\ h x = false) \/
     (f x = false /\ g x = true /\ h x = false) \/
     (f x = false /\ g x = false /\ h x = true)) ->
  (List.length (filter f l) + List.length (filter g l)
   + List.length (filter h l) = List.length l)%nat.
Proof.
  induction l as [|x l IH]; intros H; [reflexivity|].
  assert (IH' := IH (fun y Hy => H y (or_intror Hy))).
  cbn [filter]. destruct (H x (or_introl eq_refl)) as [[-> [-> ->]]|[[-> [-> ->]]|[-> [-> ->]]]];
    cbn [List.length]; lia.
Qed.

(** X4: whenever the sync-state mapping is reported, the three buckets of
    [networksBySyncState] partition its networks: every network of the
    mapping is in exactly one bucket, and the bucket sizes add up to the
    number of networks. *)
Theorem networksBySyncState_partition (st : Store) (o : JsObj.t NetworkSyncState) :
  networksSyncState st = Some o ->
  exists synced unsynced sincing,
    networksBySyncState st =
      [("synced", synced); ("unsynced", unsynced); ("sincing", sincing)] /\
    (forall k, In k (JsObj.keys o) ->
       (In k synced /\ ~ In k unsynced /\ ~ In k sincing) \/
       (~ In k synced /\ In k unsynced /\ ~ In k sincing) \/
       (~ In k synced /\ ~ In k unsynced /\ In k sincing)) /\
    (forall k, In k synced \/ In k unsynced \/ In k sincing -> In k (JsObj.keys o)) /\
    (List.length synced + List.length unsynced + List.length sincing
     = List.length (JsObj.keys o))%nat.
Proof.
  intros H. unfold networksBySyncState. rewrite H.
  eexists. eexists. eexists. split; [reflexivity|]. split; [|split].
  - intros k Hk. rewrite !filter_In.
    destruct (has_state_one o k Hk) as [[A [B C]]|[[A [B C]]|[A [B C]]]];
      rewrite A, B, C; [left | right; left | right; right];
      repeat split; try assumption; intros [_ F]; discriminate.
  - intros k. rewrite !filter_In. tauto.
  - apply filter_three_lengths. intros k Hk. apply has_state_one, Hk.
Qed.

Lemma networksBySyncState_partition_witness :
  exists synced unsynced sincing,
    networksBySyncState settled_store =
      [("synced", synced); ("unsynced", unsynced); ("sincing", sincing)] /\
    (List.length synced + List.length unsynced + List.length sincing = 1)%nat.
Proof.
  destruct (networksBySyncState_partition settled_store
              [(Network_id ARBITRUM, Synced)] eq_refl)
    as [a [b [c [E [_ [_ L]]]]]].
  exists a, b, c. split; [exact E | exact L].
Defined.

(** X5: when the bridge-mirror response holds zero rows, the four
    participating networks all sit in the [unsynced] bucket, listed by
    ascending chain id (Optimism, Gnosis, Polygon, Arbitrum), and the two
    other buckets are empty. *)
Theorem fast_path_partition (st : Store) (r : OmniEscrowLocksResponse) :
  omniEscrowResponse st = Some r ->
  omniVotingEscrowLocks r = [] ->
  networksBySyncState st =
    [("synced", []);
     ("unsynced", map Network_id [OPTIMISM; GNOSIS; POLYGON; ARBITRUM]);
     ("sincing", [])].
Proof.
  intros H E. unfold networksBySyncState, networksSyncState.
  rewrite (allNetworksUnsynced_empty st r H E). reflexivity.
Qed.

Lemma fast_path_partition_witness :
  lookup_key (networksBySyncState
                (mkStore (Some (mkOmniEscrowLocksResponse [])) true None true None true))
             "unsynced" = Some [10; 100; 137; 42161].
Proof.
  rewrite (fast_path_partition
             (mkStore (Some (mkOmniEscrowLocksResponse [])) true None true None true)
             (mkOmniEscrowLocksResponse []) eq_refl eq_refl).
  reflexivity.
Defined.

(** X6: a sync-state mapping is never reported while [isLoading] is true. *)
Theorem networksSyncState_reported_not_loading (st : Store)
    (o : JsObj.t NetworkSyncState) :
  networksSyncState st = Some o -> isLoading st = false.
Proof.
  unfold networksSyncState, isLoading.
  destruct (allNetworksUnsynced st); [reflexivity|].
  destruct (isLoadingOmniEscrow st || isLoadingVotingEscrow st
            || isLoadingVotingEscrowArbitrum st); [discriminate | reflexivity].
Qed.

Lemma networksSyncState_reported_not_loading_witness :
  isLoading settled_store = false.
Proof.
  exact (networksSyncState_reported_not_loading settled_store
           [(Network_id ARBITRUM, Synced)] eq_refl).
Defined.


(** ** The decay model on inputs with at most four decimal places *)









(** ** [refetch] on the fast path *)




(** * The voting-gauge generator script *)

Lemma Network_eqb_eq (a b : Network) : Network_eqb a b = true <-> a = b.
Proof.
  unfold Network_eqb. rewrite Z.eqb_eq.
  split; [|intros ->; reflexivity]. destruct a, b; cbn; congruence.
Qed.

Lemma balancer_uri_not_trustwallet (env : ScriptEnv) (t u : string) (n : Network) :
  getTrustWalletAssetsURI env t n = Resolved u -> u <> getBalancerAssetsURI t.
Proof.
  unfold getTrustWalletAssetsURI, getBalancerAssetsURI.
  destruct (getAddress env t); [|discriminate].
  intros H. injection H as <-. cbn. discriminate.
Qed.

Lemma getTokenLogoURI_other_network (env : ScriptEnv) (t : string) (n : Network) :
  Network_eqb n MAINNET = false ->
  getTokenLogoURI env t n [] =
    match getTrustWalletAssetsURI env t n with
    | Rejected e => (Rejected e, [])
    | Resolved u =>
        match fetch_status env u with
        | Rejected e => (Rejected e, [Fetch u])
        | Resolved status =>
            (Resolved (if status =? 200 then u else ""), [Fetch u])
        end
    end.
Proof.
  intros H. unfold getTokenLogoURI. rewrite H.
  unfold bind, ret, lift_result, emit, modify.
  destruct (getTrustWalletAssetsURI env t n) as [u|e]; [|reflexivity].
  cbn. destruct (fetch_status env u) as [status|e]; [|reflexivity].
  destruct (status =? 200); reflexivity.
Qed.

Lemma getTokenLogoURI_mainnet (env : ScriptEnv) (t : string) :
  getTokenLogoURI env t MAINNET [] =
    let b := getBalancerAssetsURI t in
    match fetch_status env b with
    | Rejected e => (Rejected e, [Fetch b])
    | Resolved status =>
        if status =? 200 then (Resolved b, [Fetch b])
        else
          match getTrustWalletAssetsURI env t MAINNET with
          | Rejected e => (Rejected e, [Fetch b])
          | Resolved u =>
              match fetch_status env u with
              | Rejected e => (Rejected e, [Fetch b; Fetch u])
              | Resolved status' =>
                  (Resolved (if status' =? 200 then u else ""), [Fetch b; Fetch u])
              end
          end
    end.
Proof.
  unfold getTokenLogoURI. change (Network_eqb MAINNET MAINNET) with true.
  unfold bind, ret, lift_result, emit, modify. cbn zeta. cbn [app].
  destruct (fetch_status env (getBalancerAssetsURI t)) as [status|e]; [|reflexivity].
  destruct (status =? 200); [reflexivity|].
  destruct (getTrustWalletAssetsURI env t MAINNET) as [u|e]; [|reflexivity].
  cbn [app]. destruct (fetch_status env u) as [status'|e]; [|reflexivity].
  destruct (status' =? 200); reflexivity.
Qed.

(** X11: off mainnet, [getTokenLogoURI] makes at most one request and never
    asks the Balancer assets repository. *)
Theorem getTokenLogoURI_off_mainnet (env : ScriptEnv) (t : string) (n : Network) :
  n <> MAINNET ->
  (List.length (snd (getTokenLogoURI env t n [])) <= 1)%nat /\
  ~ In (Fetch (getBalancerAssetsURI t)) (snd (getTokenLogoURI env t n [])).
Proof.
  intros H.
  assert (E : Network_eqb n MAINNET = false).
  { apply not_true_is_false. rewrite Network_eqb_eq. exact H. }
  rewrite (getTokenLogoURI_other_network env t n E).
  destruct (getTrustWalletAssetsURI env t n) as [u|e] eqn:U.
  - pose proof (balancer_uri_not_trustwallet env t u n U) as D.
    destruct (fetch_status env u); cbn [snd List.length In]; (split; [lia|]);
      intros [F|[]]; injection F as F; exact (D F).
  - cbn [snd List.length In]. split; [lia | tauto].
Qed.

Lemma getTokenLogoURI_off_mainnet_witness :
  let env := answering_env 200 None in
  (List.length (snd (getTokenLogoURI env "0xA" ARBITRUM [])) <= 1)%nat /\
  ~ In (Fetch (getBalancerAssetsURI "0xA")) (snd (getTokenLogoURI env "0xA" ARBITRUM [])).
Proof.
  intros env. apply (getTokenLogoURI_off_mainnet env "0xA" ARBITRUM). discriminate.
Defined.

(** X12: a logo address that [getTokenLogoURI] resolves to is either empty
    or the address of its last request, which was answered with status
    200. *)
Theorem getTokenLogoURI_sound (env : ScriptEnv) (t u : string) (n : Network)
    (tr : list ScriptEvent) :
  getTokenLogoURI env t n [] = (Resolved u, tr) ->
  u = "" \/
  (fetch_status env u = Resolved 200 /\ List.last tr (Fetch "") = Fetch u).
Proof.
  destruct (Network_eqb n MAINNET) eqn:E.
  - apply Network_eqb_eq in E. subst n. rewrite getTokenLogoURI_mainnet. cbn zeta.
    destruct (fetch_status env (getBalancerAssetsURI t)) as [s|e] eqn:F;
      [|discriminate].
    destruct (s =? 200) eqn:S.
    + intros H. injection H as <- <-. right. apply Z.eqb_eq in S. subst s.
      split; [exact F | reflexivity].
    + destruct (getTrustWalletAssetsURI env t MAINNET) as [w|e]; [|discriminate].
      destruct (fetch_status env w) as [s'|e] eqn:F'; [|discriminate].
      destruct (s' =? 200) eqn:S'; intros H; injection H as <- <-;
        [right | left; reflexivity].
      apply Z.eqb_eq in S'. subst s'. split; [exact F' | reflexivity].
  - rewrite (getTokenLogoURI_other_network env t n E).
    destruct (getTrustWalletAssetsURI env t n) as [w|e]; [|discriminate].
    destruct (fetch_status env w) as [s'|e] eqn:F'; [|discriminate].
    destruct (s' =? 200) eqn:S'; intros H; injection H as <- <-;
      [right | left; reflexivity].
    apply Z.eqb_eq in S'. subst s'. split; [exact F' | reflexivity].
Qed.

Lemma getTokenLogoURI_sound_witness :
  let env := answering_env 200 None in
  getBalancerAssetsURI "0xA" = "" \/
  (fetch_status env (getBalancerAssetsURI "0xA") = Resolved 200 /\
   List.last [Fetch (getBalancerAssetsURI "0xA")] (Fetch "")
     = Fetch (getBalancerAssetsURI "0xA")).
Proof.
  intros env.
  exact (getTokenLogoURI_sound env "0xA" (getBalancerAssetsURI "0xA") MAINNET
           [Fetch (getBalancerAssetsURI "0xA")] eq_refl).
Defined.

(** X13: a malformed token address makes [getTokenLogoURI] reject without
    any request off mainnet; on mainnet the Balancer repository is asked
    first, and the address is only checked, and the promise only rejected,
    when that request is not answered with 200. *)
Theorem getTokenLogoURI_malformed_address (env : ScriptEnv) (t e : string)
    (n : Network) :
  getAddress env t = Rejected e ->
  (n <> MAINNET -> getTokenLogoURI env t n [] = (Rejected e, [])) /\
  (forall status,
     fetch_status env (getBalancerAssetsURI t) = Resolved status ->
     getTokenLogoURI env t MAINNET [] =
       if status =? 200
       then (Resolved (getBalancerAssetsURI t), [Fetch (getBalancerAssetsURI t)])
       else (Rejected e, [Fetch (getBalancerAssetsURI t)])).
Proof.
  intros G. split.
  - intros H.
    assert (E : Network_eqb n MAINNET = false).
    { apply not_true_is_false. rewrite Network_eqb_eq. exact H. }
    rewrite (getTokenLogoURI_other_network env t n E).
    unfold getTrustWalletAssetsURI. rewrite G. reflexivity.
  - intros status F. rewrite getTokenLogoURI_mainnet. cbn zeta. rewrite F.
    unfold getTrustWalletAssetsURI. rewrite G. reflexivity.
Qed.

Lemma getTokenLogoURI_malformed_address_witness :
  let env := mkScriptEnv (fun _ => Rejected "invalid address") (fun _ => Resolved 404)
               None (fun _ => Rejected "offline") (fun _ => Rejected "TypeError")
               (fun _ _ => Rejected "offline") in
  getTokenLogoURI env "xyz" POLYGON [] = (Rejected "invalid address", []) /\
  getTokenLogoURI env "xyz" MAINNET []
    = (Rejected "invalid address", [Fetch (getBalancerAssetsURI "xyz")]).
Proof.
  intros env.
  destruct (getTokenLogoURI_malformed_address env "xyz" "invalid address" POLYGON
              eq_refl) as [A B].
  split; [apply A; discriminate | exact (B 404 eq_refl)].
Defined.

(** X14: Trust Wallet has a directory name only for mainnet, Arbitrum,
    Polygon and Kovan; for Optimism and Gnosis the address built points into
    a directory called "undefined". *)
Theorem getTrustWalletAssetsURI_unmapped (env : ScriptEnv) (t c : string)
    (n : Network) :
  getAddress env t = Resolved c ->
  n = OPTIMISM \/ n = GNOSIS ->
  getTrustWalletAssetsURI env t n =
    Resolved
      ("https://raw.githubusercontent.com/trustwallet/assets/master/blockchains/undefined/assets/"
         ++ c ++ "/logo.png").
Proof.
  intros G [-> | ->]; unfold getTrustWalletAssetsURI; rewrite G; reflexivity.
Qed.

Lemma getTrustWalletAssetsURI_unmapped_witness :
  getTrustWalletAssetsURI (answering_env 200 None) "0xA" GNOSIS
  = Resolved
      "https://raw.githubusercontent.com/trustwallet/assets/master/blockchains/undefined/assets/0xA/logo.png".
Proof.
  apply (getTrustWalletAssetsURI_unmapped (answering_env 200 None)
           "0xA" "0xA" GNOSIS eq_refl).
  right. reflexivity.
Defined.

(** ** Gauge addresses *)

Lemma is_layer1 (n : Network) :
  existsb (Network_eqb n) [MAINNET; KOVAN] = true <-> n = MAINNET \/ n = KOVAN.
Proof.
  cbn [existsb]. rewrite orb_false_r, orb_true_iff, !Network_eqb_eq. reflexivity.
Qed.

(** X15: for every network other than mainnet and Kovan, [getGaugeAddress]
    resolves to the zero address without any request, whatever the pool. *)
Theorem getGaugeAddress_layer2 (env : ScriptEnv) (poolId : string) (n : Network) :
  n <> MAINNET ->
  n <> KOVAN ->
  getGaugeAddress env poolId n [] =
    (Resolved "0x0000000000000000000000000000000000000000", []).
Proof.
  intros H1 H2. unfold getGaugeAddress.
  destruct (existsb (Network_eqb n) [MAINNET; KOVAN]) eqn:E; [|reflexivity].
  apply is_layer1 in E. tauto.
Qed.

Lemma getGaugeAddress_layer2_witness :
  getGaugeAddress (answering_env 200 None) "0xpool01" ARBITRUM [] =
    (Resolved "0x0000000000000000000000000000000000000000", []).
Proof.
  apply (getGaugeAddress_layer2 (answering_env 200 None) "0xpool01" ARBITRUM);
    discriminate.
Defined.

(** X16: on mainnet and Kovan, [getGaugeAddress] resolves to an address
    exactly when the subgraph is configured and answers with at least one
    gauge, and then to the id of the first gauge.  With no gauge for the
    pool the promise rejects: the empty-string fallback is never reached
    that way. *)
Theorem getGaugeAddress_layer1 (env : ScriptEnv) (poolId a : string) (n : Network) :
  n = MAINNET \/ n = KOVAN ->
  (exists tr, getGaugeAddress env poolId n [] = (Resolved a, tr)) <->
  (exists endpoint others,
     gauge_subgraph env n = Resolved endpoint /\
     post_gauges env endpoint (gauge_query poolId)
       = Resolved (mkGaugesJson (Some (a :: others)))).
Proof.
  intros L. apply is_layer1 in L. unfold getGaugeAddress. rewrite L.
  unfold getLayer1GaugeAddress, bind, ret, lift_result, emit, modify, throw.
  remember (gauge_query poolId) as q eqn:Q. clear Q.
  destruct (gauge_subgraph env n) as [ep|e].
  - destruct (post_gauges env ep q) as [[[gs|]]|e] eqn:P.
    + destruct gs as [|g gs]; cbn.
      * split; [intros [tr H]; discriminate|].
        intros [ep' [o [E1 E2]]]. injection E1 as E1. subst ep'. rewrite P in E2. discriminate.
      * assert (G : (if truthy g then g else "") = g).
        { unfold truthy. destruct (String.eqb g "") eqn:E; cbn; [|reflexivity].
          apply String.eqb_eq in E. now subst g. }
        rewrite G. split.
        -- intros [tr H]. injection H as <- _. exists ep, gs.
           split; [reflexivity | exact P].
        -- intros [ep' [o [E1 E2]]]. injection E1 as E1. subst ep'. rewrite P in E2.
           injection E2 as <- _. eexists. reflexivity.
    + cbn. split; [intros [tr H]; discriminate|].
      intros [ep' [o [E1 E2]]]. injection E1 as E1. subst ep'. rewrite P in E2. discriminate.
    + cbn. split; [intros [tr H]; discriminate|].
      intros [ep' [o [E1 E2]]]. injection E1 as E1. subst ep'. rewrite P in E2. discriminate.
  - split; [intros [tr H]; discriminate|].
    intros [ep' [o [E1 E2]]]. discriminate.
Qed.

Lemma getGaugeAddress_layer1_witness :
  (exists tr, getGaugeAddress (answering_env 200 (Some ["0xgauge"; "0xother"]))
                "0xpool01" MAINNET [] = (Resolved "0xgauge", tr)) /\
  ~ (exists tr, getGaugeAddress (answering_env 200 (Some []))
                  "0xpool01" MAINNET [] = (Resolved "", tr)).
Proof.
  split.
  - apply (getGaugeAddress_layer1 (answering_env 200 (Some ["0xgauge"; "0xother"]))
             "0xpool01" "0xgauge" MAINNET (or_introl eq_refl)).
    exists "https://subgraph/gauges", ["0xother"]. split; reflexivity.
  - intros H.
    apply (getGaugeAddress_layer1 (answering_env 200 (Some []))
             "0xpool01" "" MAINNET (or_introl eq_refl)) in H.
    destruct H as [ep [o [_ H]]]. discriminate H.
Defined.

(** ** Pool descriptions *)

(** X17: [getPoolInfo] makes one request, to
    [<POOLS_API_URL>/<chain id>/<pool id>], and keeps the tokens of the
    answer in order, with their addresses and symbols; a token's weight is
    kept when it is a non-empty string and is the string "null" when it is
    absent or empty, so no token of the result has an empty weight. *)
Theorem getPoolInfo_tokens (env : ScriptEnv) (poolId : string) (n : Network)
    (j : PoolJson) :
  fetch_pool env (interpolate (POOLS_API_URL env) ++ "/" ++ Network_toString n
                    ++ "/" ++ poolId) = Resolved j ->
  exists pool,
    getPoolInfo env poolId n [] =
      (Resolved pool,
       [Fetch (interpolate (POOLS_API_URL env) ++ "/" ++ Network_toString n
                 ++ "/" ++ poolId)]) /\
    map PoolToken.address (pool_tokens pool)
      = map PoolToken.json_address (json_tokens j) /\
    map PoolToken.symbol (pool_tokens pool)
      = map PoolToken.json_symbol (json_tokens j) /\
    Forall (fun t => PoolToken.weight t <> "") (pool_tokens pool) /\
    (forall i t w,
       nth_error (json_tokens j) i = Some t ->
       PoolToken.json_weight t = Some w -> w <> "" ->
       option_map PoolToken.weight (nth_error (pool_tokens pool) i) = Some w) /\
    (forall i t,
       nth_error (json_tokens j) i = Some t ->
       PoolToken.json_weight t = None \/ PoolToken.json_weight t = Some "" ->
       option_map PoolToken.weight (nth_error (pool_tokens pool) i) = Some "null").
Proof.
  intros F. unfold getPoolInfo, bind, ret, lift_result, emit, modify.
  cbn zeta. cbn [app]. rewrite F. eexists. split; [reflexivity|].
  cbn [pool_tokens]. rewrite !map_map. cbn [PoolToken.address PoolToken.symbol].
  split; [reflexivity|]. split; [reflexivity|]. split; [|split].
  - apply Forall_forall. intros t Ht. apply in_map_iff in Ht.
    destruct Ht as [x [<- _]]. cbn [PoolToken.weight].
    destruct (PoolToken.json_weight x) as [w|]; [|discriminate].
    unfold truthy. destruct (String.eqb w "") eqn:E; cbn; [discriminate|].
    now apply String.eqb_neq.
  - intros i t w Ht Hw Nw. rewrite nth_error_map, Ht. cbn. rewrite Hw.
    unfold truthy. apply String.eqb_neq in Nw. rewrite Nw. reflexivity.
  - intros i t Ht [Hw | Hw]; rewrite nth_error_map, Ht; cbn; rewrite Hw;
      reflexivity.
Qed.

Lemma getPoolInfo_tokens_witness :
  exists pool,
    getPoolInfo (answering_env 200 None) "0xpool01" ARBITRUM [] =
      (Resolved pool, [Fetch "undefined/42161/0xpool01"]) /\
    option_map PoolToken.weight (nth_error (pool_tokens pool) 0) = Some "0.8" /\
    option_map PoolToken.weight (nth_error (pool_tokens pool) 1) = Some "null" /\
    option_map PoolToken.weight (nth_error (pool_tokens pool) 2) = Some "null".
Proof.
  destruct (getPoolInfo_tokens (answering_env 200 None) "0xpool01" ARBITRUM
              _ eq_refl) as [pool [E [_ [_ [_ [K N]]]]]].
  exists pool. split; [exact E|]. split; [|split].
  - apply (K 0%nat (PoolToken.mk_json "0xbal" (Some "0.8") "BAL") "0.8");
      [reflexivity | reflexivity | discriminate].
  - apply (N 1%nat (PoolToken.mk_json "0xweth" None "WETH"));
      [reflexivity | left; reflexivity].
  - apply (N 2%nat (PoolToken.mk_json "0xdai" (Some "") "DAI"));
      [reflexivity | right; reflexivity].
Defined.

(** * Fetching the pools for the smart order router *)

(** X18: once [fetchPoolsForSor] has resolved, the flag is set, and any
    later call resolves at once, fetching nothing and changing nothing;
    a resolved call fetches once when the flag was clear and not at all
    when it was set. *)
Theorem fetchPoolsForSor_once (b : bool) (later : result bool) (flag : bool)
    (tr : list SorEvent) :
  let s1 := snd (fetchPoolsForSor (Resolved b) (flag, tr)) in
  fst (fetchPoolsForSor (Resolved b) (flag, tr)) = Resolved tt /\
  fst s1 = true /\
  fetchPoolsForSor later s1 = (Resolved tt, s1) /\
  fetches (snd s1) = (fetches tr + if flag then 0 else 1)%nat.
Proof.
  unfold fetchPoolsForSor, bind, gets, ret, lift_result, sor_emit, modify, fetches.
  destruct flag; cbn [fst snd].
  - repeat split. lia.
  - repeat split. rewrite <- !app_assoc, filter_app, length_app. reflexivity.
Qed.

(** X19: when the fetch rejects, [fetchPoolsForSor] rejects with it and the
    flag stays clear, so the next call fetches again. *)
Theorem fetchPoolsForSor_retry (e : string) (next : result bool)
    (tr : list SorEvent) :
  let s1 := snd (fetchPoolsForSor (Rejected e) (false, tr)) in
  fst (fetchPoolsForSor (Rejected e) (false, tr)) = Rejected e /\
  fst s1 = false /\
  fetches (snd (snd (fetchPoolsForSor next s1))) = (fetches tr + 2)%nat.
Proof.
  unfold fetchPoolsForSor, bind, gets, ret, lift_result, sor_emit, modify, fetches.
  cbn [fst snd]. repeat split.
  destruct next; cbn [fst snd];
    rewrite <- !app_assoc, filter_app, length_app; cbn; lia.
Qed.

(** * The weighted pool service *)

Module WeightedPoolServiceFacts.
Import WeightedPoolService.

(** ** The native value of a join *)

Lemma value_string_fold (env : PoolEnv) (amountsIn tokensIn : list string) :
  value_string env amountsIn tokensIn
  = snd (fold_left (value_step env tokensIn) amountsIn (0%nat, "0")).
Proof. reflexivity. Qed.

Lemma fold_index (env : PoolEnv) (tokensIn l : list string) (i : nat) (v : string) :
  fst (fold_left (value_step env tokensIn) l (i, v)) = (i + List.length l)%nat.
Proof.
  revert i v. induction l as [|a l IH]; intros i v; cbn [fold_left List.length].
  - cbn. lia.
  - unfold value_step at 2. rewrite IH. lia.
Qed.

Lemma fold_no_match (env : PoolEnv) (tokensIn l : list string) (i : nat) (v : string) :
  (forall k, (k < List.length l)%nat ->
     strict_eq (nativeAsset_address env) (nth_error tokensIn (i + k)) = false) ->
  snd (fold_left (value_step env tokensIn) l (i, v)) = v.
Proof.
  revert i v. induction l as [|a l IH]; intros i v H; cbn [fold_left]; [reflexivity|].
  unfold value_step at 2.
  pose proof (H 0%nat ltac:(cbn; lia)) as H0. rewrite Nat.add_0_r in H0. rewrite H0.
  apply IH. intros k Hk. replace (S i + k)%nat with (i + S k)%nat by lia.
  apply H. cbn. lia.
Qed.

Lemma strict_eq_true (a : string) (b : option string) :
  strict_eq a b = true <-> b = Some a.
Proof.
  destruct b as [b|]; cbn; [|split; discriminate].
  rewrite String.eqb_eq. split; congruence.
Qed.

(** X20: when no token, among those that have an amount, is strictly equal
    to the native asset's address, the value of the join is built from
    "0". *)
Theorem value_string_default (env : PoolEnv) (amountsIn tokensIn : list string) :
  (forall i, (i < List.length amountsIn)%nat ->
     nth_error tokensIn i <> Some (nativeAsset_address env)) ->
  value_string env amountsIn tokensIn = "0" /\
  value env amountsIn tokensIn = EPBigNumber_from env "0".
Proof.
  intros H.
  assert (E : value_string env amountsIn tokensIn = "0").
  { rewrite value_string_fold. apply fold_no_match. intros k Hk. cbn [Nat.add].
    apply not_true_is_false. rewrite strict_eq_true. now apply H. }
  unfold value. rewrite E. split; reflexivity.
Qed.

Lemma value_string_default_witness :
  value (sample_pool_env None) ["5"; "7"] ["0xdai"; "0xeth"]
    = EPBigNumber_from (sample_pool_env None) "0".
Proof.
  apply (value_string_default (sample_pool_env None) ["5"; "7"] ["0xdai"; "0xeth"]).
  intros [|[|i]] Hi; cbn in *; try discriminate; lia.
Defined.

(** X21: when several tokens are the native asset, the amount of the last
    one is the value of the join: the amount at index [i] is used when the
    token at [i] is strictly equal to the native asset's address and no
    later token with an amount is. *)
Theorem value_string_last_match (env : PoolEnv) (amountsIn tokensIn : list string)
    (i : nat) (amount : string) :
  nth_error amountsIn i = Some amount ->
  nth_error tokensIn i = Some (nativeAsset_address env) ->
  (forall j, (i < j < List.length amountsIn)%nat ->
     nth_error tokensIn j <> Some (nativeAsset_address env)) ->
  value_string env amountsIn tokensIn = amount.
Proof.
  intros Ha Ht Later.
  destruct (nth_error_split amountsIn i Ha) as [l1 [l2 [-> L]]].
  rewrite value_string_fold, fold_left_app. cbn [fold_left].
  pose proof (fold_index env tokensIn l1 0 "0") as I.
  destruct (fold_left (value_step env tokensIn) l1 (0%nat, "0")) as [k v].
  cbn [fst] in I. cbn [Nat.add] in I. subst k. rewrite L.
  unfold value_step at 2.
  assert (T : strict_eq (nativeAsset_address env) (nth_error tokensIn i) = true)
    by now apply strict_eq_true.
  rewrite T. apply fold_no_match. intros k Hk.
  apply not_true_is_false. rewrite strict_eq_true. apply Later.
  rewrite length_app. cbn [List.length]. lia.
Qed.

Lemma value_string_last_match_witness :
  value_string (sample_pool_env None) ["5"; "7"; "9"] ["0xETH"; "0xETH"; "0xdai"] = "7".
Proof.
  apply (value_string_last_match (sample_pool_env None)
           ["5"; "7"; "9"] ["0xETH"; "0xETH"; "0xdai"] 1 "7" eq_refl eq_refl).
  intros j Hj. cbn in Hj. assert (j = 2%nat) as -> by lia. discriminate.
Defined.

(** ** Seeding the pool *)

Lemma initJoin_run (env : PoolEnv) (poolId sender receiver : string)
    (tokens balances : list string) :
  initJoin env poolId sender receiver tokens balances [] =
    match encode_init env JOIN_KIND_INIT balances with
    | Rejected e => (Rejected e, [])
    | Resolved initUserData =>
        match value env balances tokens with
        | Rejected e => (Rejected e, [])
        | Resolved v =>
            let tx :=
              mkJoinTransaction (vault env) "joinPool" poolId sender receiver
                (mkJoinPoolRequest (parseTokensIn env tokens) balances
                                   initUserData false) v in
            (sendTransaction env tx,
             [Console "tokenAddresses"; ProviderGetSigner; SendTransaction tx])
        end
    end.
Proof.
  unfold initJoin, bind, ret, lift_result, emit, modify.
  destruct (encode_init env JOIN_KIND_INIT balances); [|reflexivity].
  destruct (value env balances tokens); [|reflexivity].
  cbn [app]. destruct (sendTransaction env _); reflexivity.
Qed.

(** X22: whatever [initJoin] sends is a single [joinPool] transaction to
    the vault, sent (after asking the provider for the signer) only once the
    balances were encoded and the native value was converted; its assets are the token addresses in order with
    the native asset replaced by the zero address, its maximum amounts are
    the balances as given, it never draws on the internal balance, and the
    promise settles as the transaction does. *)
Theorem initJoin_sent (env : PoolEnv) (poolId sender receiver : string)
    (tokens balances : list string) (tx : JoinTransaction) :
  In (SendTransaction tx) (snd (initJoin env poolId sender receiver tokens balances [])) ->
  tx_action tx = "joinPool" /\
  tx_contractAddress tx = vault env /\
  assets (tx_request tx) = parseTokensIn env tokens /\
  List.length (assets (tx_request tx)) = List.length tokens /\
  maxAmountsIn (tx_request tx) = balances /\
  fromInternalBalance (tx_request tx) = false /\
  encode_init env JOIN_KIND_INIT balances = Resolved (userData (tx_request tx)) /\
  EPBigNumber_from env (value_string env balances tokens) = Resolved (tx_value tx) /\
  fst (initJoin env poolId sender receiver tokens balances []) = sendTransaction env tx /\
  filter is_provider_call (snd (initJoin env poolId sender receiver tokens balances []))
    = [ProviderGetSigner; SendTransaction tx].
Proof.
  rewrite initJoin_run.
  destruct (encode_init env JOIN_KIND_INIT balances) as [u|e]; [|intros []].
  unfold value.
  destruct (EPBigNumber_from env (value_string env balances tokens)) as [v|e];
    [|intros []].
  cbn zeta. cbn [snd fst In]. intros [H|[H|[H|[]]]]; try discriminate.
  injection H as <-. cbn. unfold parseTokensIn. rewrite length_map.
  repeat split.
Qed.

Lemma initJoin_sent_witness :
  let tx := mkJoinTransaction (Some "0xvault") "joinPool" "0xpool01" "0xme" "0xme"
              (mkJoinPoolRequest ["0xdai"; AddressZero] ["5"; "7"] "0xuserdata" false) 7 in
  assets (tx_request tx) = parseTokensIn (sample_pool_env None) ["0xdai"; "0xETH"] /\
  EPBigNumber_from (sample_pool_env None)
    (value_string (sample_pool_env None) ["5"; "7"] ["0xdai"; "0xETH"])
    = Resolved (tx_value tx).
Proof.
  intros tx.
  destruct (initJoin_sent (sample_pool_env None) "0xpool01" "0xme" "0xme"
              ["0xdai"; "0xETH"] ["5"; "7"] tx) as [_ [_ [A [_ [_ [_ [_ [V _]]]]]]]].
  - right. right. left. reflexivity.
  - split; [exact A | exact V].
Defined.

(** X23: the two tests for the native asset differ.  A token that
    [isSameAddress] takes for the native asset without being strictly equal
    to its address is sent as the zero address, while the value attached to
    the transaction is still built from "0" (when no token is strictly
    equal). *)
Theorem initJoin_native_mismatch (env : PoolEnv) (poolId sender receiver : string)
    (tokens balances : list string) (tx : JoinTransaction) (i : nat) (t : string) :
  nth_error tokens i = Some t ->
  isSameAddress env t (nativeAsset_address env) = true ->
  (forall j, (j < List.length balances)%nat ->
     nth_error tokens j <> Some (nativeAsset_address env)) ->
  In (SendTransaction tx) (snd (initJoin env poolId sender receiver tokens balances [])) ->
  nth_error (assets (tx_request tx)) i = Some AddressZero /\
  EPBigNumber_from env "0" = Resolved (tx_value tx).
Proof.
  intros Ht Same None_strict Sent.
  rewrite initJoin_run in Sent.
  destruct (encode_init env JOIN_KIND_INIT balances) as [u|e]; [|destruct Sent].
  destruct (value_string_default env balances tokens None_strict) as [_ V].
  rewrite V in Sent.
  destruct (EPBigNumber_from env "0") as [v|e]; [|destruct Sent].
  cbn zeta in Sent. cbn [snd In] in Sent.
  destruct Sent as [H|[H|[H|[]]]]; try discriminate. injection H as <-.
  cbn. split; [|reflexivity].
  unfold parseTokensIn. rewrite nth_error_map, Ht. cbn. rewrite Same. reflexivity.
Qed.

Lemma initJoin_native_mismatch_witness :
  let tx := mkJoinTransaction (Some "0xvault") "joinPool" "0xpool01" "0xme" "0xme"
              (mkJoinPoolRequest ["0xdai"; AddressZero] ["5"; "7"] "0xuserdata" false) 0 in
  nth_error (assets (tx_request tx)) 1 = Some AddressZero /\
  EPBigNumber_from (sample_pool_env None) "0" = Resolved (tx_value tx).
Proof.
  intros tx.
  apply (initJoin_native_mismatch (sample_pool_env None) "0xpool01" "0xme" "0xme"
           ["0xdai"; "0xeth"] ["5"; "7"] tx 1 "0xeth" eq_refl eq_refl).
  - intros [|[|j]] Hj; cbn in *; try discriminate; lia.
  - right. right. left. reflexivity.
Defined.

(** ** Looking a created pool up *)

Lemma find_creation_log (env : PoolEnv) (l : list Log) :
  find (fun parsedLog =>
          match parsedLog with
          | Some p => String.eqb (log_name p) "PoolCreated"
          | None => false
          end)
       (map (parseLog env)
            (filter (fun log => strict_eq (log_address log) (weightedPoolFactory env)) l))
  = option_map (parseLog env) (find (is_creation_log env) l).
Proof.
  induction l as [|a l IH]; [reflexivity|].
  cbn [filter find]. unfold is_creation_log at 1.
  destruct (strict_eq (log_address a) (weightedPoolFactory env)); cbn [andb];
    [|exact IH].
  cbn [map find].
  destruct (parseLog env a) as [p|] eqn:P; [|exact IH].
  destruct (String.eqb (log_name p) "PoolCreated"); [|exact IH].
  cbn [option_map]. rewrite P. reflexivity.
Qed.

Lemma find_all_false {A} (f : A -> bool) (l : list A) :
  (forall x, In x l -> f x = false) -> find f l = None.
Proof.
  induction l as [|a l IH]; intros H; [reflexivity|]. cbn [find].
  rewrite (H a (or_introl eq_refl)). apply IH. intros x Hx. apply H. now right.
Qed.

Lemma filter_console_logs (l : list Log) :
  filter is_provider_call (map (fun _ : Log => Console "log") l) = [].
Proof. induction l; [reflexivity | exact IHl]. Qed.

(** The outcome of [retrievePoolIdAndAddress] and the calls it makes to the
    provider, console output left aside. *)
Lemma retrievePoolIdAndAddress_run (env : PoolEnv) (hash : string) :
  (fst (retrievePoolIdAndAddress env hash []),
   filter is_provider_call (snd (retrievePoolIdAndAddress env hash []))) =
    match getTransactionReceipt env hash with
    | Rejected e => (Rejected e, [GetTransactionReceipt hash])
    | Resolved None => (Resolved None, [GetTransactionReceipt hash])
    | Resolved (Some receipt) =>
        match option_map (parseLog env) (find (is_creation_log env) (logs receipt)) with
        | Some (Some p) =>
            (match getPoolId env (args_pool p) with
             | Resolved id => Resolved (Some (mkCreatePoolReturn id (args_pool p)))
             | Rejected e => Rejected e
             end,
             [GetTransactionReceipt hash; GetPoolId (args_pool p)])
        | _ => (Resolved None, [GetTransactionReceipt hash])
        end
    end.
Proof.
  unfold retrievePoolIdAndAddress, bind, ret, lift_result, emit, modify.
  cbn [app].
  destruct (getTransactionReceipt env hash) as [[receipt|]|e]; try reflexivity.
  rewrite find_creation_log.
  destruct (option_map (parseLog env) (find (is_creation_log env) (logs receipt)))
    as [[p|]|]; cbn [fst snd app];
    try (destruct (getPoolId env (args_pool p)); cbn [fst snd]);
    rewrite ?filter_app; cbn [filter is_provider_call];
    rewrite ?filter_app, filter_console_logs; reflexivity.
Qed.

(** X24: the pool is read from the first log of the receipt that the
    configured factory emitted and that parses as [PoolCreated]; logs of
    other contracts, logs that do not parse and other events before it are
    passed over.  Its id is then asked of the pool contract, once. *)
Theorem retrievePoolIdAndAddress_first_creation (env : PoolEnv) (hash : string)
    (receipt : Receipt) (before after : list Log) (log : Log) :
  getTransactionReceipt env hash = Resolved (Some receipt) ->
  logs receipt = (before ++ log :: after)%list ->
  (forall l, In l before -> is_creation_log env l = false) ->
  is_creation_log env log = true ->
  exists p,
    parseLog env log = Some p /\
    fst (retrievePoolIdAndAddress env hash []) =
      match getPoolId env (args_pool p) with
      | Resolved id => Resolved (Some (mkCreatePoolReturn id (args_pool p)))
      | Rejected e => Rejected e
      end /\
    filter is_provider_call (snd (retrievePoolIdAndAddress env hash []))
      = [GetTransactionReceipt hash; GetPoolId (args_pool p)].
Proof.
  intros R L B C.
  assert (F : find (is_creation_log env) (logs receipt) = Some log).
  { rewrite L. clear L. induction before as [|a l IH]; cbn [app find].
    - rewrite C. reflexivity.
    - rewrite (B a (or_introl eq_refl)). apply IH.
      intros x Hx. apply B. now right. }
  pose proof (retrievePoolIdAndAddress_run env hash) as Run.
  rewrite R, F in Run. cbn [option_map] in Run.
  unfold is_creation_log in C. apply andb_true_iff in C. destruct C as [_ C].
  destruct (parseLog env log) as [p|]; [|discriminate].
  exists p. injection Run as -> ->. repeat split.
Qed.

Lemma retrievePoolIdAndAddress_first_creation_witness :
  fst (retrievePoolIdAndAddress
         (sample_pool_env (Some (mkReceipt sample_logs))) "0xhash" [])
  = Resolved (Some (mkCreatePoolReturn "0xpool01" "0xpool")).
Proof.
  destruct (retrievePoolIdAndAddress_first_creation
              (sample_pool_env (Some (mkReceipt sample_logs))) "0xhash"
              (mkReceipt sample_logs)
              [mkLog "0xother" "PoolCreated"; mkLog "0xfactory" "Transfer"] []
              (mkLog "0xfactory" "PoolCreated") eq_refl eq_refl)
    as [p [P [E _]]].
  - intros l [<-|[<-|[]]]; reflexivity.
  - reflexivity.
  - rewrite E. injection P as <-. reflexivity.
Defined.

(** X25: with no receipt yet, or a receipt in which no log of the factory
    parses as [PoolCreated], [retrievePoolIdAndAddress] resolves to null and
    no pool contract is asked for its id. *)
Theorem retrievePoolIdAndAddress_null (env : PoolEnv) (hash : string) :
  getTransactionReceipt env hash = Resolved None \/
  (exists receipt,
     getTransactionReceipt env hash = Resolved (Some receipt) /\
     forall l, In l (logs receipt) -> is_creation_log env l = false) ->
  fst (retrievePoolIdAndAddress env hash []) = Resolved None /\
  filter is_provider_call (snd (retrievePoolIdAndAddress env hash []))
    = [GetTransactionReceipt hash].
Proof.
  intros H. pose proof (retrievePoolIdAndAddress_run env hash) as Run.
  destruct H as [R | [receipt [R N]]]; rewrite R in Run.
  - injection Run as -> ->. split; reflexivity.
  - rewrite (find_all_false _ _ N) in Run. injection Run as -> ->.
    split; reflexivity.
Qed.

Lemma retrievePoolIdAndAddress_null_witness :
  fst (retrievePoolIdAndAddress
         (sample_pool_env (Some (mkReceipt [mkLog "0xother" "PoolCreated";
                                            mkLog "0xfactory" "garbage"])))
         "0xhash" []) = Resolved None.
Proof.
  apply (retrievePoolIdAndAddress_null
           (sample_pool_env (Some (mkReceipt [mkLog "0xother" "PoolCreated";
                                              mkLog "0xfactory" "garbage"])))
           "0xhash").
  right. eexists. split; [reflexivity|].
  intros l [<-|[<-|[]]]; reflexivity.
Defined.

(** X26: a pool that [retrievePoolIdAndAddress] resolves to always comes
    from a log of the receipt that the configured factory emitted and that
    parses as [PoolCreated]: its address is that event's pool and its id is
    what the pool contract at that address answered. *)
Theorem retrievePoolIdAndAddress_sound (env : PoolEnv) (hash : string)
    (r : CreatePoolReturn) :
  fst (retrievePoolIdAndAddress env hash []) = Resolved (Some r) ->
  exists receipt log p,
    getTransactionReceipt env hash = Resolved (Some receipt) /\
    In log (logs receipt) /\
    weightedPoolFactory env = Some (log_address log) /\
    parseLog env log = Some p /\
    log_name p = "PoolCreated" /\
    args_pool p = created_address r /\
    getPoolId env (created_address r) = Resolved (created_id r).
Proof.
  intros H. pose proof (retrievePoolIdAndAddress_run env hash) as Run.
  rewrite H in Run.
  destruct (getTransactionReceipt env hash) as [[receipt|]|e]; try discriminate.
  destruct (find (is_creation_log env) (logs receipt)) as [log|] eqn:F;
    [|discriminate].
  apply find_some in F. destruct F as [Hin C].
  unfold is_creation_log in C. apply andb_true_iff in C. destruct C as [A N].
  apply strict_eq_true in A. cbn [option_map] in Run.
  destruct (parseLog env log) as [p|] eqn:P; [|discriminate].
  destruct (getPoolId env (args_pool p)) as [id|e] eqn:G; [|discriminate].
  injection Run as Run _. subst r. cbn [created_address created_id].
  exists receipt, log, p. apply String.eqb_eq in N. repeat split; assumption.
Qed.

Lemma retrievePoolIdAndAddress_sound_witness :
  exists receipt log p,
    getTransactionReceipt (sample_pool_env (Some (mkReceipt sample_logs))) "0xhash"
      = Resolved (Some receipt) /\
    In log (logs receipt) /\
    weightedPoolFactory (sample_pool_env (Some (mkReceipt sample_logs)))
      = Some (log_address log) /\
    parseLog (sample_pool_env (Some (mkReceipt sample_logs))) log = Some p /\
    log_name p = "PoolCreated" /\
    args_pool p = "0xpool" /\
    getPoolId (sample_pool_env (Some (mkReceipt sample_logs))) "0xpool"
      = Resolved "0xpool01".
Proof.
  exact (retrievePoolIdAndAddress_sound
           (sample_pool_env (Some (mkReceipt sample_logs))) "0xhash"
           (mkCreatePoolReturn "0xpool01" "0xpool") eq_refl).
Defined.

(** ** The details of a created pool *)

Lemma retrievePoolIdAndAddress_no_execute (env : PoolEnv) (hash : string)
    (calls : list Call) :
  ~ In (Execute calls) (snd (retrievePoolIdAndAddress env hash [])).
Proof.
  unfold retrievePoolIdAndAddress, bind, ret, lift_result, emit, modify.
  cbn [app].
  destruct (getTransactionReceipt env hash) as [[receipt|]|e]; cbn [snd].
  - set (fl := filter _ (logs receipt)).
    assert (C : ~ In (Execute calls) (map (fun _ : Log => Console "log") fl)).
    { intros H. apply in_map_iff in H. destruct H as [x [H _]]. discriminate. }
    destruct (find _ (map (parseLog env) fl)) as [[p|]|]; cbn [snd];
      try (destruct (getPoolId env (args_pool p)); cbn [snd]);
      rewrite ?in_app_iff; cbn [In app]; rewrite ?in_app_iff; cbn [In];
      intuition discriminate.
  - cbn. intuition discriminate.
  - cbn. intuition discriminate.
Qed.

(** X27: [retrievePoolDetails] does nothing at all for an empty hash, and
    runs the multicall only when [retrievePoolIdAndAddress] found a pool:
    the four pool calls then go to that pool's address and the token call
    goes to the vault with that pool's id. *)
Theorem retrievePoolDetails_guarded (env : PoolEnv) :
  retrievePoolDetails env "" [] = (Resolved None, []) /\
  forall hash calls,
    In (Execute calls) (snd (retrievePoolDetails env hash [])) ->
    exists r,
      fst (retrievePoolIdAndAddress env hash []) = Resolved (Some r) /\
      calls =
        [mkCall "name" (Some (created_address r)) "name" [];
         mkCall "symbol" (Some (created_address r)) "symbol" [];
         mkCall "owner" (Some (created_address r)) "getOwner" [];
         mkCall "weights" (Some (created_address r)) "getNormalizedWeights" [];
         mkCall "tokenInfo" (vault env) "getPoolTokens" [created_id r]].
Proof.
  split; [reflexivity|].
  intros hash calls. unfold retrievePoolDetails.
  destruct (negb (truthy hash)); [intros []|].
  unfold bind at 1.
  pose proof (retrievePoolIdAndAddress_no_execute env hash calls) as N.
  destruct (retrievePoolIdAndAddress env hash []) as [[[r|]|e] tr];
    cbn [fst snd] in *; try (intros H; exfalso; exact (N H)).
  unfold bind, ret, lift_result, emit, modify. cbn zeta.
  intros H. exists r. split; [reflexivity|].
  assert (H' : In (Execute calls)
                 (tr ++ [Execute
                    [mkCall "name" (Some (created_address r)) "name" [];
                     mkCall "symbol" (Some (created_address r)) "symbol" [];
                     mkCall "owner" (Some (created_address r)) "getOwner" [];
                     mkCall "weights" (Some (created_address r)) "getNormalizedWeights" [];
                     mkCall "tokenInfo" (vault env) "getPoolTokens" [created_id r]]])).
  { destruct (multicall_execute env _); exact H. }
  apply in_app_iff in H'. destruct H' as [H'|[H'|[]]]; [exfalso; exact (N H')|].
  injection H' as <-. reflexivity.
Qed.

Lemma retrievePoolDetails_guarded_witness :
  exists r,
    fst (retrievePoolIdAndAddress
           (sample_pool_env (Some (mkReceipt sample_logs))) "0xhash" [])
      = Resolved (Some r) /\
    created_address r = "0xpool".
Proof.
  destruct (retrievePoolDetails_guarded (sample_pool_env (Some (mkReceipt sample_logs))))
    as [_ G].
  destruct (G "0xhash"
              [mkCall "name" (Some "0xpool") "name" [];
               mkCall "symbol" (Some "0xpool") "symbol" [];
               mkCall "owner" (Some "0xpool") "getOwner" [];
               mkCall "weights" (Some "0xpool") "getNormalizedWeights" [];
               mkCall "tokenInfo" (Some "0xvault") "getPoolTokens" ["0xpool01"]])
    as [r [E C]].
  - vm_compute. do 7 right. left. reflexivity.
  - exists r. split; [exact E|]. injection C as C _. congruence.
Defined.

End WeightedPoolServiceFacts.
